(** * CryptoBoard backend: the endpoints of [cryptoboard-backend/main.py]

    A shallow embedding of the seven FastAPI handlers and of the fragment of
    Python, pandas and Starlette they call, followed by the properties of the
    handlers.

    Conventions of the embedding.
    - A Python [str] is a [string] whose characters are read as code points
      below 256; [lower], [isspace] and case-insensitive matching are the
      Unicode ones restricted to that range.
    - A Python [int] is a [Z].  An [int64] column sum wraps around ([wrap64]).
    - A float is NaN or finite; the value of a finite float is not modelled.
    - A column of the article table is typed as [read_csv] types it: an
      object column when it holds a text or the table is empty, a float64
      column when it has rows and every cell is missing.
    - The module-level globals [articles_df] and [word_counts_df] are passed to
      every handler as arguments.
    - A call that can raise returns an [outcome]; statements are sequenced with
      the bind of that monad, so the first exception ends the handler. *)

From Stdlib Require Import String Ascii List ZArith NArith Bool Lia.
From Stdlib Require Import Permutation Sorted OrdersEx RelationClasses Setoid.
Import ListNotations.

Local Open Scope string_scope.
Local Open Scope Z_scope.
Set Warnings "-register-all".

(** ** Outcomes of a call *)

(** The exceptions the handlers can meet. *)
Inductive exn : Type :=
| AttributeError
| TypeError
| ValueError.

(** [Ok v]: the call returns [v].  [Raise e]: it raises [e].  [Beyond]: the
    call's argument lies outside the fragment of the library that is modelled
    here (only [re_compile] produces it, for a pattern that uses regular
    expression syntax other than [.]). *)
Inductive outcome (A : Type) : Type :=
| Ok (v : A)
| Raise (e : exn)
| Beyond.

Arguments Ok {A} v.
Arguments Raise {A} e.
Arguments Beyond {A}.

Definition bind {A B : Type} (m : outcome A) (k : A -> outcome B) : outcome B :=
  match m with
  | Ok v => k v
  | Raise e => Raise e
  | Beyond => Beyond
  end.

Notation "x <- m ;; k" := (bind m (fun x => k))
  (at level 61, m at next level, right associativity).

(** A [for] loop that builds a list with [append], one element per item. *)
Fixpoint for_each {A B : Type} (body : A -> outcome B) (l : list A)
  : outcome (list B) :=
  match l with
  | [] => Ok []
  | x :: rest =>
      y <- body x ;;
      ys <- for_each body rest ;;
      Ok (y :: ys)
  end.

(** ** Python strings *)

Definition code (c : ascii) : N := N_of_ascii c.

(** [str.isspace] on one character, as [str.split()] uses it. *)
Definition isspace (c : ascii) : bool :=
  let n := code c in
  (((9 <=? n) && (n <=? 13)) || ((28 <=? n) && (n <=? 32))
   || (n =? 133) || (n =? 160))%N.

(** [str.lower] on one character: A-Z, and the capital letters of the
    Latin-1 supplement (all of 192..222 but the multiplication sign). *)
Definition lower_char (c : ascii) : ascii :=
  let n := code c in
  if (((65 <=? n) && (n <=? 90))
      || ((192 <=? n) && (n <=? 222) && negb (n =? 215)))%N
  then ascii_of_N (n + 32)
  else c.

Fixpoint lower (s : string) : string :=
  match s with
  | EmptyString => EmptyString
  | String c rest => String (lower_char c) (lower rest)
  end.

Definition is_empty (s : string) : bool :=
  match s with EmptyString => true | String _ _ => false end.

(** [str.split()] with no argument: the maximal runs of non-whitespace.
    [tok] is the run being read. *)
Fixpoint split_from (tok : string) (s : string) : list string :=
  match s with
  | EmptyString => if is_empty tok then [] else [tok]
  | String c rest =>
      if isspace c
      then (if is_empty tok then split_from "" rest
            else tok :: split_from "" rest)
      else split_from (tok ++ String c "") rest
  end.

Definition split (s : string) : list string := split_from "" s.

(** [p in s] for two strings. *)
Fixpoint substringb (p s : string) : bool :=
  String.prefix p s
  || match s with
     | EmptyString => false
     | String _ rest => substringb p rest
     end.

(** ** Python floats and JSON values *)

(** A float is NaN or finite.  The value of a finite float is not modelled:
    the handlers only compute one, the mean of the content lengths, and what
    is said of it is that it is finite. *)
Inductive pyfloat : Type :=
| FNaN
| Finite.

Inductive json : Type :=
| JInt (z : Z)
| JFloat (f : pyfloat)
| JStr (s : string)
| JList (l : list json)
| JDict (items : list (string * json)).

(** What [json.dumps(..., allow_nan=False)] accepts. *)
Fixpoint nan_free (j : json) : bool :=
  match j with
  | JInt _ => true
  | JFloat FNaN => false
  | JFloat Finite => true
  | JStr _ => true
  | JList l => forallb nan_free l
  | JDict items => forallb (fun kv => nan_free (snd kv)) items
  end.

(** [JSONResponse(content=...)]: Starlette renders the body in the
    constructor with [allow_nan=False], so a NaN anywhere in the content
    raises [ValueError] there.  The rendered response is identified with its
    content. *)
Definition JSONResponse (content : json) : outcome json :=
  if nan_free content then Ok content else Raise ValueError.

(** ** The fragment of [re] the handlers reach through [Series.str.contains] *)

(** The characters with a meaning of their own in a pattern. *)
Definition special_chars : string := ".^$*+?{}[]\|()".

Fixpoint mem_char (c : ascii) (s : string) : bool :=
  match s with
  | EmptyString => false
  | String d rest => Ascii.eqb c d || mem_char c rest
  end.

Definition special (c : ascii) : bool := mem_char c special_chars.

(** A pattern without special characters stands for itself. *)
Fixpoint plain (p : string) : bool :=
  match p with
  | EmptyString => true
  | String c rest => negb (special c) && plain rest
  end.

(** A compiled pattern of the fragment: a sequence of literal characters
    and dots. *)
Inductive atom : Type :=
| Lit (c : ascii)
| AnyChar.

Definition dot : ascii := "."%char.
Definition newline : ascii := ascii_of_N 10.

(** [re.compile(pat)]: an ordinary character is a literal, [.] is the dot;
    any other special character leaves the fragment. *)
Fixpoint re_compile (pat : string) : outcome (list atom) :=
  match pat with
  | EmptyString => Ok []
  | String c rest =>
      if Ascii.eqb c dot then
        r <- re_compile rest ;; Ok (AnyChar :: r)
      else if special c then Beyond
      else
        r <- re_compile rest ;; Ok (Lit c :: r)
  end.

(** One atom against one character; [ignorecase] is [re.IGNORECASE].  The
    dot matches everything but a newline. *)
Definition atom_match (ignorecase : bool) (a : atom) (c : ascii) : bool :=
  match a with
  | Lit x =>
      if ignorecase then Ascii.eqb (lower_char x) (lower_char c)
      else Ascii.eqb x c
  | AnyChar => negb (Ascii.eqb c newline)
  end.

(** The pattern matches at the start of [s]. *)
Fixpoint match_here (ignorecase : bool) (r : list atom) (s : string) : bool :=
  match r with
  | [] => true
  | a :: r' =>
      match s with
      | EmptyString => false
      | String c rest => atom_match ignorecase a c && match_here ignorecase r' rest
      end
  end.

(** [pattern.search(s) is not None]: the pattern matches at some position. *)
Fixpoint re_search (ignorecase : bool) (r : list atom) (s : string) : bool :=
  match_here ignorecase r s
  || match s with
     | EmptyString => false
     | String _ rest => re_search ignorecase r rest
     end.

(** ** pandas: the article table *)

(** A cell of a column of the article table as [read_csv] leaves it: text,
    or NaN where the field is missing. *)
Inductive cell : Type :=
| Str (s : string)
| NaN.

(** A row of [articles_df]. *)
Record Row : Type := mkRow { title : cell; link : cell; content : cell }.

(** An article of the data model: every field is a string. *)
Record Article : Type :=
  mkArticle { art_title : string; art_link : string; art_content : string }.

Definition row_of (a : Article) : Row :=
  mkRow (Str (art_title a)) (Str (art_link a)) (Str (art_content a)).

(** The table that holds exactly the given articles. *)
Definition frame_of (arts : list Article) : list Row := map row_of arts.

Definition cell_json (c : cell) : json :=
  match c with
  | Str s => JStr s
  | NaN => JFloat FNaN
  end.

(** One record of [df[['title', 'link']].to_dict(orient='records')]. *)
Definition title_link (r : Row) : json :=
  JDict [("title", cell_json (title r)); ("link", cell_json (link r))].

(** A bound of a Python slice over a sequence of length [n]: a negative
    bound counts from the end, and every bound is clipped to [0..n]. *)
Definition slice_bound (n i : Z) : Z :=
  if i <? 0 then Z.max (i + n) 0 else Z.min i n.

(** [df.iloc[start:stop]]. *)
Definition iloc {A : Type} (df : list A) (start stop : Z) : list A :=
  let n := Z.of_nat (length df) in
  let s := slice_bound n start in
  let e := slice_bound n stop in
  firstn (Z.to_nat (e - s)) (skipn (Z.to_nat s) df).

(** The type [read_csv] gives a column: object when some cell is a text,
    and for the empty table; float64 when the table has rows and every cell
    of the column is missing. *)
Definition object_column (col : list cell) : bool :=
  match col with
  | [] => true
  | _ :: _ => existsb (fun c => match c with Str _ => true | NaN => false end) col
  end.

(** [series.str]: the accessor exists on an object column only; on a
    float64 column looking it up raises [AttributeError]. *)
Definition str_accessor (col : list cell) : outcome (list cell) :=
  if object_column col then Ok col else Raise AttributeError.

(** [series.str.contains(pat, case=case, na=na)] with the default
    [regex=True]: the accessor is looked up, the pattern is compiled once,
    then searched in every text cell; a missing cell gets [na]. *)
Definition str_contains (col : list cell) (pat : string) (case na : bool)
  : outcome (list bool) :=
  texts <- str_accessor col ;;
  r <- re_compile pat ;;
  Ok (map (fun c => match c with
                    | Str s => re_search (negb case) r s
                    | NaN => na
                    end) texts).

(** [df[mask]]: the rows whose mask entry is true, in order. *)
Definition boolean_index {A : Type} (df : list A) (mask : list bool) : list A :=
  map fst (filter snd (combine df mask)).

(** [series.apply(len)]: [len] of a text cell; [len(nan)] raises. *)
Definition apply_len (col : list cell) : outcome (list Z) :=
  for_each (fun c => match c with
                     | Str s => Ok (Z.of_nat (String.length s))
                     | NaN => Raise TypeError
                     end) col.

(** [series.mean()]: NaN for an empty series, a finite float (the binary64
    quotient of the sum by the number of rows) otherwise. *)
Definition mean (l : list Z) : pyfloat :=
  match l with
  | [] => FNaN
  | _ :: _ => Finite
  end.

(** ** Python mappings: [dict] and [collections.Counter] *)

(** The two classes of mapping the article counter builds.  Both keep their
    items in insertion order; only a [Counter] has [most_common]. *)
Inductive mapping : Type :=
| PyDict (kvs : list (string * Z))
| PyCounter (kvs : list (string * Z)).

Definition items (m : mapping) : list (string * Z) :=
  match m with
  | PyDict kvs => kvs
  | PyCounter kvs => kvs
  end.

(** [c[k] += 1] on the items of a counter: a known key keeps its place, a new
    key goes last. *)
Fixpoint incr (k : string) (kvs : list (string * Z)) : list (string * Z) :=
  match kvs with
  | [] => [(k, 1)]
  | (k', v) :: rest =>
      if String.eqb k k' then (k', v + 1) :: rest
      else (k', v) :: incr k rest
  end.

(** [Counter(iterable)]. *)
Definition Counter (l : list string) : mapping :=
  PyCounter (fold_left (fun kvs k => incr k kvs) l []).

(** [d[k] = v] on the items of a dict. *)
Fixpoint setitem (k : string) (v : Z) (kvs : list (string * Z))
  : list (string * Z) :=
  match kvs with
  | [] => [(k, v)]
  | (k', v') :: rest =>
      if String.eqb k k' then (k', v) :: rest
      else (k', v') :: setitem k v rest
  end.

(** [dict(pairs)]. *)
Definition dict (pairs : list (string * Z)) : mapping :=
  PyDict (fold_left (fun kvs kv => setitem (fst kv) (snd kv) kvs) pairs []).

(** [sorted(l, key=key, reverse=True)]: descending, and stable. *)
Fixpoint insert_desc {A : Type} (key : A -> Z) (x : A) (l : list A) : list A :=
  match l with
  | [] => [x]
  | y :: rest =>
      if key y <=? key x then x :: y :: rest
      else y :: insert_desc key x rest
  end.

Definition sorted_desc {A : Type} (key : A -> Z) (l : list A) : list A :=
  fold_right (insert_desc key) [] l.

(** [m.most_common(n)]: the attribute exists on a [Counter], where it is
    [heapq.nlargest(n, items, key=itemgetter(1))], the first [n] of the stable
    descending sort; looking it up on a plain [dict] raises
    [AttributeError]. *)
Definition most_common (m : mapping) (n : nat) : outcome (list (string * Z)) :=
  match m with
  | PyCounter kvs => Ok (firstn n (sorted_desc snd kvs))
  | PyDict _ => Raise AttributeError
  end.

Definition mapping_json (m : mapping) : json :=
  JDict (map (fun kv => (fst kv, JInt (snd kv))) (items m)).

(** [article.split()]: a missing cell is a float, which has no [split]. *)
Definition cell_split (c : cell) : outcome (list string) :=
  match c with
  | Str s => Ok (split s)
  | NaN => Raise AttributeError
  end.

(** ** pandas: the word-count table *)

(** A row of [word_counts_df].  The count column is an [int64] column,
    which is how [read_csv] types it when every count fits 64 bits signed
    ([int64_counts] below); the sums of [groupby] are those of such a
    column. *)
Record WordCount : Type := mkWordCount { word : string; count : Z }.

(** A row of a frame grouped by word: the word is the row's index label, the
    one column left is [count]. *)
Record Grouped : Type := mkGrouped { index : string; sum_count : Z }.

(** Two's complement reduction to 64 bits. *)
Definition wrap64 (z : Z) : Z := (z + 2 ^ 63) mod 2 ^ 64 - 2 ^ 63.

(** The group keys: the distinct words in ascending order ([sort=True]),
    strings being compared character by character on their code points. *)
Fixpoint insert_key (k : string) (keys : list string) : list string :=
  match keys with
  | [] => [k]
  | k' :: rest =>
      match String_as_OT.compare k k' with
      | Lt => k :: keys
      | Eq => keys
      | Gt => k' :: insert_key k rest
      end
  end.

Definition group_keys (df : list WordCount) : list string :=
  fold_right insert_key [] (map word df).

(** The [int64] sum of the counts of the rows of one group. *)
Definition group_sum (k : string) (df : list WordCount) : Z :=
  fold_left (fun acc r => if String.eqb (word r) k then wrap64 (acc + count r)
                          else acc) df 0.

(** [df.groupby('word').sum()]. *)
Definition groupby_word_sum (df : list WordCount) : list Grouped :=
  map (fun k => mkGrouped k (group_sum k df)) (group_keys df).

(** [frame.sort_values(by, ascending=False)] with the default sort kind,
    which is not stable: what pandas promises is a rearrangement of the rows
    in non-increasing order of the column, and no more is assumed. *)
Class SortValues : Type := {
  sort_values : forall {A : Type}, (A -> Z) -> list A -> list A;
  sort_values_perm :
    forall (A : Type) (by_ : A -> Z) (l : list A),
      Permutation l (sort_values by_ l);
  sort_values_sorted :
    forall (A : Type) (by_ : A -> Z) (l : list A),
      StronglySorted (fun x y => by_ y <= by_ x) (sort_values by_ l)
}.

(** [to_dict(orient='records')] of a grouped frame: one dict per row over the
    columns; the index is not a column. *)
Definition grouped_record (g : Grouped) : json :=
  JDict [("count", JInt (sum_count g))].

(** [to_dict(orient='records')] of rows of [word_counts_df]. *)
Definition word_count_record (r : WordCount) : json :=
  JDict [("word", JStr (word r)); ("count", JInt (count r))].

(** ** The handlers *)

Section Handlers.

Context {pandas_sort : SortValues}.

(** [get_word_counts()]. *)
Definition get_word_counts (word_counts_df : list WordCount) : list Grouped :=
  let word_counts := sort_values sum_count (groupby_word_sum word_counts_df) in
  firstn 10 word_counts.

(** [GET /api/newsfeed]. *)
Definition get_newsfeed (articles_df : list Row) (skip limit : Z)
  : outcome json :=
  let articles := iloc articles_df skip (skip + limit) in
  JSONResponse (JList (map title_link articles)).

(** [GET /api/word-cloud]. *)
Definition get_word_cloud (word_counts_df : list WordCount) : outcome json :=
  let word_counts := get_word_counts word_counts_df in
  JSONResponse (JList (map grouped_record word_counts)).

Definition stop_words : list string :=
  ["the"; "a"; "an"; "and"; "or"; "to"; "in"; "of"; "for"; "with"; "on"; "at"].

Definition in_set (k : string) (set : list string) : bool :=
  existsb (String.eqb k) set.

(** [GET /api/article-counter].  [filtered_words] is built by a dict
    comprehension, so it is a plain [dict]. *)
Definition get_article_counter (articles_df : list Row) : outcome json :=
  article_words <-
    for_each (fun row =>
      let article := content row in
      word_list <- cell_split article ;;
      let word_count := Counter word_list in
      let filtered_words :=
        PyDict (filter (fun kv => negb (in_set (lower (fst kv)) stop_words))
                       (items word_count)) in
      pairs <- most_common filtered_words 5 ;;
      let top_words := dict pairs in
      Ok (JDict [("title", cell_json (title row));
                 ("top_words", mapping_json top_words)]))
      articles_df ;;
  JSONResponse (JList article_words).

(** [GET /api/word-trend]. *)
Definition get_word_trend (word_counts_df : list WordCount) (w : string)
  : outcome json :=
  let word_data := filter (fun r => String.eqb (word r) w) word_counts_df in
  let word_data := sort_values count word_data in
  JSONResponse (JList (map word_count_record word_data)).

(** [GET /api/comparative]. *)
Definition get_comparative (articles_df : list Row) (category1 category2 : string)
  : outcome json :=
  mask1 <- str_contains (map link articles_df) category1 true false ;;
  let articles_in_category1 := boolean_index articles_df mask1 in
  mask2 <- str_contains (map link articles_df) category2 true false ;;
  let articles_in_category2 := boolean_index articles_df mask2 in
  JSONResponse (JDict
    [("category1", JInt (Z.of_nat (length articles_in_category1)));
     ("category2", JInt (Z.of_nat (length articles_in_category2)))]).

(** [GET /api/by-coin]. *)
Definition get_by_coin (articles_df : list Row) (coin : string) : outcome json :=
  mask <- str_contains (map content articles_df) coin false false ;;
  let coin_articles := boolean_index articles_df mask in
  JSONResponse (JList (map title_link coin_articles)).

(** [GET /api/meta]. *)
Definition get_meta (articles_df : list Row) : outcome json :=
  let total_articles := Z.of_nat (length articles_df) in
  lens <- apply_len (map content articles_df) ;;
  let avg_article_length := mean lens in
  JSONResponse (JDict
    [("total_articles", JInt total_articles);
     ("average_article_length", JFloat avg_article_length)]).

End Handlers.

(** ** The operations in the words of the specification

    Reference definitions over the articles of the data model, against which
    the handlers are compared. *)

(** The number of elements that satisfy [f]. *)
Definition count_if {A : Type} (f : A -> bool) (l : list A) : Z :=
  Z.of_nat (length (filter f l)).

(** The [{title, link}] pair of an article. *)
Definition title_link_of (a : Article) : json :=
  JDict [("title", JStr (art_title a)); ("link", JStr (art_link a))].

(** compareCategories: for each category, the number of articles whose link
    contains it as a substring, case-sensitively. *)
Definition compareCategories_spec (arts : list Article)
    (category1 category2 : string) : json :=
  JDict
    [("category1", JInt (count_if (fun a => substringb category1 (art_link a)) arts));
     ("category2", JInt (count_if (fun a => substringb category2 (art_link a)) arts))].

(** articlesByCoin: the pairs of the articles whose content contains the coin
    as a substring once both are lowercased, in table order. *)
Definition articlesByCoin_spec (arts : list Article) (coin : string) : json :=
  JList (map title_link_of
           (filter (fun a => substringb (lower coin) (lower (art_content a))) arts)).

(** [d.get(k)] on a JSON object. *)
Fixpoint assoc (k : string) (kvs : list (string * json)) : option json :=
  match kvs with
  | [] => None
  | (k', v) :: rest => if String.eqb k k' then Some v else assoc k rest
  end.

Definition json_get (k : string) (j : json) : option json :=
  match j with
  | JDict kvs => assoc k kvs
  | _ => None
  end.

(** ** Auxiliary definitions of the statements *)

(** The order of a descending sort by [key]. *)
Definition desc {A : Type} (key : A -> Z) (x y : A) : Prop := key y <= key x.

(** The literal atoms of a string. *)
Fixpoint lits (p : string) : list atom :=
  match p with
  | EmptyString => []
  | String c rest => Lit c :: lits rest
  end.

(** The mask entry of one cell under a compiled pattern, with [na=False]. *)
Definition cell_matches (ignorecase : bool) (r : list atom) (c : cell) : bool :=
  match c with
  | Str s => re_search ignorecase r s
  | NaN => false
  end.

(** The cell holds a text. *)
Definition present (c : cell) : bool :=
  match c with
  | Str _ => true
  | NaN => false
  end.

(** The sum of the counts of the rows whose word is [k], in [Z]. *)
Definition word_total (k : string) (df : list WordCount) : Z :=
  fold_right Z.add 0 (map count (filter (fun r => String.eqb (word r) k) df)).

(** The title and the link of the row are texts. *)
Definition complete_pair (r : Row) : bool := present (title r) && present (link r).

(** The sum of a list of integers, in [Z]. *)
Definition total (l : list Z) : Z := fold_right Z.add 0 l.

(** The distinct words of the table. *)
Definition distinct_words (df : list WordCount) : list string :=
  nodup string_dec (map word df).

(** Some character of the string is whitespace. *)
Fixpoint has_space (s : string) : bool :=
  match s with
  | EmptyString => false
  | String c rest => isspace c || has_space rest
  end.

(** A word as [split] yields them: not empty, no whitespace in it. *)
Definition is_token (s : string) : bool := negb (is_empty s) && negb (has_space s).

(** The cell is a text in which [p] occurs. *)
Definition text_contains (p : string) (c : cell) : bool :=
  match c with
  | Str s => substringb p s
  | NaN => false
  end.

(** The cell is a text in which [p] occurs, letter case apart. *)
Definition text_contains_nocase (p : string) (c : cell) : bool :=
  match c with
  | Str s => substringb (lower p) (lower s)
  | NaN => false
  end.

(** The length of the content of a row that has one. *)
Definition content_length (r : Row) : Z :=
  match content r with
  | Str s => Z.of_nat (String.length s)
  | NaN => 0
  end.

(** [c[k]] on the items of a counter: the count of the key, 0 when it is
    absent. *)
Fixpoint getitem (k : string) (kvs : list (string * Z)) : Z :=
  match kvs with
  | [] => 0
  | (k', v) :: rest => if String.eqb k k' then v else getitem k rest
  end.

(** The distinct elements of a list in the order of their first
    occurrence. *)
Definition first_occurrences (l : list string) : list string :=
  rev (nodup string_dec (rev l)).

(** A pattern whose only special characters are dots, as in a host name. *)
Fixpoint dotted (p : string) : bool :=
  match p with
  | EmptyString => true
  | String c rest => (Ascii.eqb c dot || negb (special c)) && dotted rest
  end.

(** The atoms of a dotted pattern. *)
Fixpoint atoms (p : string) : list atom :=
  match p with
  | EmptyString => []
  | String c rest => (if Ascii.eqb c dot then AnyChar else Lit c) :: atoms rest
  end.

(** Every count of the table fits 64 bits signed, so that [read_csv] types
    the count column [int64]. *)
Definition int64_counts (df : list WordCount) : Prop :=
  forall r, In r df -> - 2 ^ 63 <= count r < 2 ^ 63.

(** * Properties *)

(** ** Sorting *)

Lemma insert_desc_perm {A : Type} (key : A -> Z) (x : A) (l : list A) :
  Permutation (x :: l) (insert_desc key x l).
Proof.
  induction l as [|y l IH]; simpl.
  - apply Permutation_refl.
  - destruct (key y <=? key x).
    + apply Permutation_refl.
    + eapply perm_trans; [apply perm_swap|].
      apply perm_skip, IH.
Qed.

Lemma sorted_desc_perm {A : Type} (key : A -> Z) (l : list A) :
  Permutation l (sorted_desc key l).
Proof.
  induction l as [|x l IH]; simpl.
  - constructor.
  - eapply perm_trans; [apply perm_skip, IH|].
    apply insert_desc_perm.
Qed.

Lemma insert_desc_sorted {A : Type} (key : A -> Z) (x : A) (l : list A) :
  StronglySorted (desc key) l -> StronglySorted (desc key) (insert_desc key x l).
Proof.
  induction 1 as [|y l Hs IH Hy]; simpl.
  - repeat constructor.
  - destruct (key y <=? key x) eqn:E.
    + apply Z.leb_le in E.
      constructor; [constructor; assumption|].
      constructor; [exact E|].
      eapply Forall_impl; [|exact Hy].
      unfold desc; intros; lia.
    + apply Z.leb_gt in E.
      constructor; [exact IH|].
      eapply Permutation_Forall; [apply insert_desc_perm|].
      constructor; [unfold desc; lia|exact Hy].
Qed.

Lemma sorted_desc_sorted {A : Type} (key : A -> Z) (l : list A) :
  StronglySorted (desc key) (sorted_desc key l).
Proof.
  induction l as [|x l IH]; simpl.
  - constructor.
  - apply insert_desc_sorted, IH.
Qed.

(** The stable descending sort meets the contract of [sort_values]. *)
#[export] Instance stable_sort_values : SortValues := {
  sort_values := @sorted_desc;
  sort_values_perm := @sorted_desc_perm;
  sort_values_sorted := @sorted_desc_sorted
}.

(** ** Serialisation of the tables of the data model *)

Lemma title_link_row_of (a : Article) : title_link (row_of a) = title_link_of a.
Proof. reflexivity. Qed.

Lemma map_title_link_frame (arts : list Article) :
  map title_link (frame_of arts) = map title_link_of arts.
Proof. unfold frame_of. rewrite map_map. reflexivity. Qed.

Lemma nan_free_title_links (arts : list Article) :
  nan_free (JList (map title_link_of arts)) = true.
Proof.
  simpl. induction arts as [|a arts IH]; simpl; [reflexivity|exact IH].
Qed.

Lemma JSONResponse_title_links (arts : list Article) :
  JSONResponse (JList (map title_link_of arts)) = Ok (JList (map title_link_of arts)).
Proof. unfold JSONResponse. rewrite nan_free_title_links. reflexivity. Qed.

(** ** The article counter *)

(** C1. On every table that has at least one article the article counter
    raises [AttributeError] in its first iteration and returns no entry at
    all: the filtered words are a plain dict, and [most_common] is looked up
    on it (or, for a missing content, [split] is looked up on a float). *)
Theorem article_counter_raises (articles_df : list Row) :
  articles_df <> [] ->
  get_article_counter articles_df = Raise AttributeError.
Proof.
  intros Hne. destruct articles_df as [|row rest]; [contradiction|].
  unfold get_article_counter. simpl.
  destruct (content row); reflexivity.
Qed.

Lemma article_counter_raises_witness :
  [mkRow (Str "t") (Str "l") (Str "bitcoin to the moon")] <> []
  /\ get_article_counter [mkRow (Str "t") (Str "l") (Str "bitcoin to the moon")]
     = Raise AttributeError.
Proof.
  split.
  - discriminate.
  - apply article_counter_raises. discriminate.
Defined.

(** The loop body is never entered on the empty table, which is the only
    table the handler answers. *)
Lemma article_counter_empty : get_article_counter [] = Ok (JList []).
Proof. reflexivity. Qed.

(** ** Dataset metadata *)

(** C8. On the empty article table the mean of the content lengths is NaN
    and building the response raises [ValueError]: no value is returned for
    [total_articles] or [average_article_length]. *)
Theorem meta_empty_raises :
  apply_len (map content []) = Ok [] /\ mean [] = FNaN
  /\ get_meta [] = Raise ValueError.
Proof. repeat split. Qed.

(** C2. Two operations raise on inputs of the declared types: the article
    counter on a table of one article, the metadata on the empty table. *)
Theorem operations_raise :
  get_article_counter (frame_of [mkArticle "t" "l" "bitcoin"]) = Raise AttributeError
  /\ get_meta (frame_of []) = Raise ValueError.
Proof. split; reflexivity. Qed.

(** ** The word cloud *)

Lemma nan_free_grouped_records (gs : list Grouped) :
  nan_free (JList (map grouped_record gs)) = true.
Proof.
  simpl. induction gs as [|g gs IH]; simpl; [reflexivity|exact IH].
Qed.

Lemma get_word_cloud_eq `{SortValues} (word_counts_df : list WordCount) :
  get_word_cloud word_counts_df
  = Ok (JList (map grouped_record (get_word_counts word_counts_df))).
Proof.
  unfold get_word_cloud, JSONResponse.
  rewrite nan_free_grouped_records. reflexivity.
Qed.

Lemma sort_values_singleton `{SortValues} {A : Type} (by_ : A -> Z) (x : A) :
  sort_values by_ [x] = [x].
Proof.
  apply Permutation_length_1_inv, sort_values_perm.
Qed.

(** C3. Whatever the word-count table, every record of the word cloud is
    the one-key object [{"count": c}]: the word, which [groupby] has made
    the index, is not in the response.  On the table of the single row
    (btc, 3) the response is [[{"count": 3}]]. *)
Theorem word_cloud_drops_word `{SortValues} (word_counts_df : list WordCount) :
  (exists records,
      get_word_cloud word_counts_df = Ok (JList records)
      /\ Forall (fun r => json_get "word" r = None
                          /\ exists c, r = JDict [("count", JInt c)]) records)
  /\ get_word_cloud [mkWordCount "btc" 3] = Ok (JList [JDict [("count", JInt 3)]]).
Proof.
  split.
  - exists (map grouped_record (get_word_counts word_counts_df)).
    split; [apply get_word_cloud_eq|].
    apply Forall_forall. intros r Hr.
    apply in_map_iff in Hr. destruct Hr as [g [<- _]].
    split; [reflexivity|]. exists (sum_count g). reflexivity.
  - rewrite get_word_cloud_eq. unfold get_word_counts.
    change (groupby_word_sum [mkWordCount "btc" 3]) with [mkGrouped "btc" 3].
    rewrite sort_values_singleton. reflexivity.
Qed.

(** ** The word trend *)

Lemma filter_none {A : Type} (f : A -> bool) (l : list A) :
  (forall x, In x l -> f x = false) -> filter f l = [].
Proof.
  induction l as [|x l IH]; simpl; intros Hnone; [reflexivity|].
  rewrite (Hnone x (or_introl eq_refl)).
  apply IH. intros y Hy. apply Hnone. right. exact Hy.
Qed.

Lemma nan_free_word_count_records (rows : list WordCount) :
  nan_free (JList (map word_count_record rows)) = true.
Proof.
  simpl. induction rows as [|r rows IH]; simpl; [reflexivity|exact IH].
Qed.

(** C6. The word trend returns one object [{"word": w, "count": c}] for
    each row of a rearrangement of exactly the rows whose word is the argument
    (compared for equality, so case-sensitively), in non-increasing order of
    count; it is the empty sequence when no row has that word. *)
Theorem word_trend_exact_match_sorted `{SortValues}
    (word_counts_df : list WordCount) (w : string) :
  exists rows,
    get_word_trend word_counts_df w
    = Ok (JList (map (fun r => JDict [("word", JStr (word r));
                                      ("count", JInt (count r))]) rows))
    /\ Permutation (filter (fun r => String.eqb (word r) w) word_counts_df) rows
    /\ (forall r, In r rows <-> In r word_counts_df /\ word r = w)
    /\ StronglySorted (fun r1 r2 => count r2 <= count r1) rows
    /\ ((forall r, In r word_counts_df -> word r <> w) -> rows = []).
Proof.
  set (matching := filter (fun r => String.eqb (word r) w) word_counts_df).
  exists (sort_values count matching).
  assert (Hperm : Permutation matching (sort_values count matching))
    by apply sort_values_perm.
  assert (Hresp : get_word_trend word_counts_df w
                  = Ok (JList (map (fun r => JDict [("word", JStr (word r));
                                                    ("count", JInt (count r))])
                                   (sort_values count matching)))).
  { unfold get_word_trend, JSONResponse. fold matching.
    rewrite nan_free_word_count_records. reflexivity. }
  split; [exact Hresp|]. split; [|split; [|split]].
  - exact Hperm.
  - intros r. split.
    + intros Hin. apply (Permutation_in _ (Permutation_sym Hperm)) in Hin.
      apply filter_In in Hin. destruct Hin as [Hin Heq].
      apply String.eqb_eq in Heq. auto.
    + intros [Hin Heq]. apply (Permutation_in _ Hperm).
      apply filter_In. split; [exact Hin|]. apply String.eqb_eq, Heq.
  - apply sort_values_sorted.
  - intros Hnone.
    assert (Hempty : matching = []).
    { apply filter_none. intros r Hin.
      apply String.eqb_neq, Hnone, Hin. }
    rewrite Hempty in Hperm |- *.
    apply Permutation_nil in Hperm. exact Hperm.
Qed.

(** ** The newsfeed *)

(** With bounds that are not negative the slice is "drop [skip], then take
    [limit]". *)
Lemma iloc_nonneg {A : Type} (df : list A) (skip limit : Z) :
  0 <= skip -> 0 <= limit ->
  iloc df skip (skip + limit)
  = firstn (Z.to_nat limit) (skipn (Z.to_nat skip) df).
Proof.
  intros Hs Hl. unfold iloc, slice_bound.
  destruct (Z.ltb_spec skip 0) as [?|_]; [lia|].
  destruct (Z.ltb_spec (skip + limit) 0) as [?|_]; [lia|].
  set (n := Z.of_nat (length df)).
  assert (Hlen : length (skipn (Z.to_nat skip) df) = (length df - Z.to_nat skip)%nat)
    by apply length_skipn.
  destruct (Z.le_gt_cases n skip) as [Hge|Hlt].
  - rewrite skipn_all2 by (unfold n in Hge; lia).
    rewrite skipn_all2 by (unfold n in Hge; lia).
    rewrite !firstn_nil. reflexivity.
  - rewrite (Z.min_l skip n) by lia.
    destruct (Z.le_gt_cases (skip + limit) n) as [Hin|Hout].
    + rewrite Z.min_l by lia. f_equal. lia.
    + rewrite Z.min_r by lia.
      rewrite !firstn_all2; [reflexivity| |]; rewrite Hlen; unfold n in *; lia.
Qed.

Lemma iloc_frame (arts : list Article) (start stop : Z) :
  iloc (frame_of arts) start stop = frame_of (iloc arts start stop).
Proof.
  unfold iloc, frame_of. rewrite length_map, skipn_map, firstn_map. reflexivity.
Qed.

Lemma get_newsfeed_frame (arts : list Article) (skip limit : Z) :
  get_newsfeed (frame_of arts) skip limit
  = Ok (JList (map title_link_of (iloc arts skip (skip + limit)))).
Proof.
  unfold get_newsfeed. rewrite iloc_frame, map_title_link_frame.
  apply JSONResponse_title_links.
Qed.

(** Outside the data model: a row without a title puts a NaN in the
    content, which the response refuses. *)
Example newsfeed_missing_title :
  get_newsfeed [mkRow NaN (Str "l") (Str "c")] 0 10 = Raise ValueError.
Proof. reflexivity. Qed.

(** C9. For [skip] and [limit] that are not negative the newsfeed returns:
    at most [limit] rows, and none when [skip] is at or past the end of the
    table. *)
Theorem newsfeed_in_range (arts : list Article) (skip limit : Z) :
  0 <= skip -> 0 <= limit ->
  exists rows,
    get_newsfeed (frame_of arts) skip limit = Ok (JList rows)
    /\ Z.of_nat (length rows) <= limit
    /\ (Z.of_nat (length arts) <= skip -> rows = []).
Proof.
  intros Hs Hl.
  exists (map title_link_of (iloc arts skip (skip + limit))).
  split; [apply get_newsfeed_frame|].
  rewrite iloc_nonneg by assumption. split.
  - rewrite length_map, length_firstn. lia.
  - intros Hpast. rewrite skipn_all2 by lia. rewrite firstn_nil. reflexivity.
Qed.

Lemma newsfeed_in_range_witness :
  exists rows,
    get_newsfeed (frame_of [mkArticle "t1" "l1" "c1"; mkArticle "t2" "l2" "c2"]) 1 5
    = Ok (JList rows)
    /\ Z.of_nat (length rows) <= 5
    /\ (Z.of_nat (length [mkArticle "t1" "l1" "c1"; mkArticle "t2" "l2" "c2"]) <= 1
        -> rows = []).
Proof.
  apply (newsfeed_in_range [mkArticle "t1" "l1" "c1"; mkArticle "t2" "l2" "c2"] 1 5);
    lia.
Defined.

(** Cutting a list into pages of [n] elements: every page before the
    [k]-th is not empty, the [k]-th is, and the pages put end to end are the
    list. *)
Lemma pages_cover {A : Type} (n : nat) (l : list A) :
  (0 < n)%nat ->
  exists k : nat,
    (forall i, (i < k)%nat -> firstn n (skipn (i * n) l) <> [])
    /\ firstn n (skipn (k * n) l) = []
    /\ concat (map (fun i => firstn n (skipn (i * n) l)) (seq 0 k)) = l.
Proof.
  intros Hn.
  remember (length l) as m eqn:Hm. revert l Hm.
  induction m as [m IH] using (well_founded_induction lt_wf). intros l Hm.
  destruct l as [|x l'].
  - exists 0%nat. simpl. repeat split.
    + intros i Hi. lia.
    + apply firstn_nil.
  - set (l := x :: l') in *.
    assert (Hshort : (length (skipn n l) < m)%nat).
    { rewrite length_skipn, Hm. unfold l. cbn [length]. lia. }
    destruct (IH _ Hshort (skipn n l) eq_refl) as [k [Hfull [Hlast Hcat]]].
    assert (Hshift : forall i, skipn (S i * n) l = skipn (i * n) (skipn n l)).
    { intros i. rewrite skipn_skipn. f_equal. lia. }
    exists (S k). repeat split.
    + intros [|i] Hi.
      * simpl. destruct n; [lia|]. discriminate.
      * rewrite Hshift. apply Hfull. lia.
    + rewrite Hshift. exact Hlast.
    + change (seq 0 (S k)) with (0%nat :: seq 1 k).
      rewrite <- seq_shift, map_cons, map_map. simpl concat.
      rewrite (map_ext _ (fun i => firstn n (skipn (i * n) (skipn n l))))
        by (intros i; rewrite skipn_skipn; do 2 f_equal; lia).
      rewrite Hcat. simpl skipn. apply firstn_skipn.
Qed.

Lemma get_newsfeed_page (arts : list Article) (N : Z) (i : nat) :
  0 < N ->
  get_newsfeed (frame_of arts) (Z.of_nat i * N) N
  = Ok (JList (map title_link_of
                 (firstn (Z.to_nat N) (skipn (i * Z.to_nat N) arts)))).
Proof.
  intros HN. rewrite get_newsfeed_frame, iloc_nonneg by lia.
  replace (Z.to_nat (Z.of_nat i * N)) with (i * Z.to_nat N)%nat by nia.
  reflexivity.
Qed.

Lemma nth_map_seq {B : Type} (f : nat -> B) (k i : nat) (d : B) :
  (i < k)%nat -> nth i (map f (seq 0 k)) d = f i.
Proof.
  intros Hi.
  rewrite (nth_indep _ d (f 0%nat)) by (rewrite length_map, length_seq; exact Hi).
  rewrite map_nth, seq_nth by exact Hi. reflexivity.
Qed.

(** C7. Paging through the newsfeed with a positive [limit = N], at
    [skip = 0, N, 2N, ...], meets a run of [pages] that are not empty and
    then an empty one, and the pages put end to end are the [{title, link}]
    rows of the whole table in table order. *)
Theorem newsfeed_pagination (arts : list Article) (N : Z) :
  0 < N ->
  exists pages : list (list json),
    (forall i, (i < length pages)%nat ->
       get_newsfeed (frame_of arts) (Z.of_nat i * N) N = Ok (JList (nth i pages []))
       /\ nth i pages [] <> [])
    /\ get_newsfeed (frame_of arts) (Z.of_nat (length pages) * N) N = Ok (JList [])
    /\ concat pages = map title_link_of arts.
Proof.
  intros HN.
  destruct (pages_cover (Z.to_nat N) arts ltac:(lia)) as [k [Hfull [Hlast Hcat]]].
  pose (chunk := fun i => firstn (Z.to_nat N) (skipn (i * Z.to_nat N) arts)).
  exists (map (fun i => map title_link_of (chunk i)) (seq 0 k)).
  rewrite length_map, length_seq.
  split; [|split].
  - intros i Hi. rewrite nth_map_seq by exact Hi.
    split; [apply get_newsfeed_page, HN|].
    intros Hnil. apply (Hfull i Hi).
    change (chunk i = []). destruct (chunk i); [reflexivity|discriminate].
  - rewrite get_newsfeed_page by exact HN.
    rewrite Hlast. reflexivity.
  - rewrite <- (map_map chunk (map title_link_of)), <- concat_map.
    unfold chunk. rewrite Hcat. reflexivity.
Qed.

Lemma newsfeed_pagination_witness :
  exists pages : list (list json),
    (forall i, (i < length pages)%nat ->
       get_newsfeed
         (frame_of [mkArticle "t1" "l1" "c1"; mkArticle "t2" "l2" "c2";
                    mkArticle "t3" "l3" "c3"]) (Z.of_nat i * 2) 2
       = Ok (JList (nth i pages []))
       /\ nth i pages [] <> [])
    /\ get_newsfeed
         (frame_of [mkArticle "t1" "l1" "c1"; mkArticle "t2" "l2" "c2";
                    mkArticle "t3" "l3" "c3"]) (Z.of_nat (length pages) * 2) 2
       = Ok (JList [])
    /\ concat pages
       = map title_link_of [mkArticle "t1" "l1" "c1"; mkArticle "t2" "l2" "c2";
                            mkArticle "t3" "l3" "c3"].
Proof.
  apply (newsfeed_pagination
           [mkArticle "t1" "l1" "c1"; mkArticle "t2" "l2" "c2";
            mkArticle "t3" "l3" "c3"] 2).
  lia.
Defined.

(** ** Patterns without special characters *)

Lemma re_compile_plain (p : string) :
  plain p = true -> re_compile p = Ok (lits p).
Proof.
  induction p as [|c rest IH]; simpl; intros Hp; [reflexivity|].
  apply andb_true_iff in Hp. destruct Hp as [Hc Hrest].
  apply negb_true_iff in Hc.
  destruct (Ascii.eqb c dot) eqn:Edot.
  - apply Ascii.eqb_eq in Edot. subst c. discriminate Hc.
  - rewrite Hc, (IH Hrest). reflexivity.
Qed.

Lemma match_here_lits (p s : string) :
  match_here false (lits p) s = String.prefix p s.
Proof.
  revert s. induction p as [|a p IH]; intros s; destruct s as [|b s]; simpl;
    try reflexivity.
  destruct (ascii_dec a b) as [->|Hne].
  - rewrite Ascii.eqb_refl. apply IH.
  - apply Ascii.eqb_neq in Hne. rewrite Hne. reflexivity.
Qed.

Lemma match_here_lits_ignorecase (p s : string) :
  match_here true (lits p) s = String.prefix (lower p) (lower s).
Proof.
  revert s. induction p as [|a p IH]; intros s; destruct s as [|b s]; simpl;
    try reflexivity.
  destruct (ascii_dec (lower_char a) (lower_char b)) as [->|Hne].
  - rewrite Ascii.eqb_refl. apply IH.
  - apply Ascii.eqb_neq in Hne. rewrite Hne. reflexivity.
Qed.

Lemma re_search_lits (p s : string) :
  re_search false (lits p) s = substringb p s.
Proof.
  induction s as [|b s IH]; simpl; rewrite match_here_lits; simpl.
  - reflexivity.
  - rewrite IH. reflexivity.
Qed.

Lemma re_search_lits_ignorecase (p s : string) :
  re_search true (lits p) s = substringb (lower p) (lower s).
Proof.
  induction s as [|b s IH].
  - simpl. rewrite match_here_lits_ignorecase. reflexivity.
  - cbn [re_search lower substringb].
    rewrite match_here_lits_ignorecase, IH. reflexivity.
Qed.

(** [substringb] decides "[p] occurs in [s]". *)
Lemma prefix_app (p s : string) :
  String.prefix p s = true <-> exists b, s = p ++ b.
Proof.
  revert s. induction p as [|a p IH]; intros s.
  - split; [intros _; exists s; reflexivity|intros _; destruct s; reflexivity].
  - destruct s as [|c s]; simpl.
    + split; [discriminate|intros [b Hb]; discriminate].
    + destruct (ascii_dec a c) as [->|Hne].
      * split.
        -- intros H. apply IH in H. destruct H as [b ->]. exists b. reflexivity.
        -- intros [b Hb]. apply IH. exists b. congruence.
      * split; [discriminate|intros [b Hb]; congruence].
Qed.

Lemma substringb_occurs (p s : string) :
  substringb p s = true <-> exists a b, s = a ++ p ++ b.
Proof.
  induction s as [|c s IH]; cbn [substringb].
  - rewrite orb_false_r. split.
    + intros H. apply prefix_app in H. destruct H as [b Hb].
      exists "", b. exact Hb.
    + intros [a [b Hab]]. apply prefix_app.
      destruct a as [|x a]; [|discriminate].
      exists b. exact Hab.
  - split.
    + intros H. apply orb_true_iff in H. destruct H as [H|H].
      * apply prefix_app in H. destruct H as [b Hb]. exists "", b. exact Hb.
      * apply IH in H. destruct H as [a [b Hab]].
        exists (String c a), b. simpl. congruence.
    + intros [a [b Hab]]. apply orb_true_iff. destruct a as [|x a].
      * left. apply prefix_app. exists b. exact Hab.
      * right. apply IH. exists a, b. simpl in Hab. congruence.
Qed.

(** ** Masks and boolean indexing *)

Lemma boolean_index_map {A : Type} (f : A -> bool) (l : list A) :
  boolean_index l (map f l) = filter f l.
Proof.
  unfold boolean_index. induction l as [|x l IH]; simpl; [reflexivity|].
  destruct (f x); simpl; rewrite IH; reflexivity.
Qed.

Lemma str_contains_column (df : list Row) (col : Row -> cell)
    (pat : string) (case : bool) :
  str_contains (map col df) pat case false
  = if object_column (map col df)
    then r <- re_compile pat ;;
         Ok (map (fun row => cell_matches (negb case) r (col row)) df)
    else Raise AttributeError.
Proof.
  unfold str_contains, str_accessor.
  destruct (object_column (map col df)); [|reflexivity].
  destruct (re_compile pat) as [r| |]; simpl; try reflexivity.
  rewrite map_map. reflexivity.
Qed.

(** The comparison, pattern by pattern, when the link column is an object
    column. *)
Lemma get_comparative_eq (df : list Row) (category1 category2 : string) :
  object_column (map link df) = true ->
  get_comparative df category1 category2
  = r1 <- re_compile category1 ;;
    r2 <- re_compile category2 ;;
    Ok (JDict
          [("category1", JInt (count_if (fun row => cell_matches false r1 (link row)) df));
           ("category2", JInt (count_if (fun row => cell_matches false r2 (link row)) df))]).
Proof.
  intros Hobj. unfold get_comparative. rewrite !str_contains_column, Hobj.
  destruct (re_compile category1) as [r1| |]; simpl; try reflexivity.
  destruct (re_compile category2) as [r2| |]; simpl; try reflexivity.
  rewrite !boolean_index_map. reflexivity.
Qed.

(** On a float64 link column the comparison stops at the accessor. *)
Lemma get_comparative_float_column (df : list Row) (category1 category2 : string) :
  object_column (map link df) = false ->
  get_comparative df category1 category2 = Raise AttributeError.
Proof.
  intros Hobj. unfold get_comparative. rewrite str_contains_column, Hobj.
  reflexivity.
Qed.

(** The coin filter, before the response is built, when the content
    column is an object column. *)
Lemma get_by_coin_eq (df : list Row) (coin : string) :
  object_column (map content df) = true ->
  get_by_coin df coin
  = r <- re_compile coin ;;
    JSONResponse
      (JList (map title_link
                (filter (fun row => cell_matches true r (content row)) df))).
Proof.
  intros Hobj. unfold get_by_coin. rewrite str_contains_column, Hobj.
  destruct (re_compile coin) as [r| |]; simpl; try reflexivity.
  rewrite boolean_index_map. reflexivity.
Qed.

Lemma get_by_coin_float_column (df : list Row) (coin : string) :
  object_column (map content df) = false ->
  get_by_coin df coin = Raise AttributeError.
Proof.
  intros Hobj. unfold get_by_coin. rewrite str_contains_column, Hobj.
  reflexivity.
Qed.

(** The columns of a table of the data model are object columns. *)
Lemma link_column_frame (arts : list Article) :
  object_column (map link (frame_of arts)) = true.
Proof. destruct arts; reflexivity. Qed.

Lemma content_column_frame (arts : list Article) :
  object_column (map content (frame_of arts)) = true.
Proof. destruct arts; reflexivity. Qed.

Lemma filter_frame (f : Row -> bool) (arts : list Article) :
  filter f (frame_of arts) = frame_of (filter (fun a => f (row_of a)) arts).
Proof.
  unfold frame_of. induction arts as [|a arts IH]; simpl; [reflexivity|].
  destruct (f (row_of a)); simpl; rewrite IH; reflexivity.
Qed.

Lemma count_if_ext {A : Type} (f g : A -> bool) (l : list A) :
  (forall x, f x = g x) -> count_if f l = count_if g l.
Proof.
  intros Hext. unfold count_if. rewrite (filter_ext f g Hext). reflexivity.
Qed.

Lemma count_if_frame (f : Row -> bool) (arts : list Article) :
  count_if f (frame_of arts) = count_if (fun a => f (row_of a)) arts.
Proof.
  unfold count_if. rewrite filter_frame. unfold frame_of.
  rewrite length_map. reflexivity.
Qed.

(** ** Category comparison *)

(** C4, as first stated, fails: the category is compiled as a regular
    expression.  With one article whose link is [abc], the category [.]
    counts that article, although no dot occurs in the link. *)
Lemma comparative_dot_counterexample :
  get_comparative (frame_of [mkArticle "t" "abc" "c"]) "." "x"
  = Ok (JDict [("category1", JInt 1); ("category2", JInt 0)])
  /\ compareCategories_spec [mkArticle "t" "abc" "c"] "." "x"
     = JDict [("category1", JInt 0); ("category2", JInt 0)]
  /\ get_comparative (frame_of [mkArticle "t" "abc" "c"]) "." "x"
     <> Ok (compareCategories_spec [mkArticle "t" "abc" "c"] "." "x").
Proof.
  split; [reflexivity|]. split; [reflexivity|]. discriminate.
Qed.

(** C4, amended.  For categories without special characters the handler
    returns the two substring counts, each taken over all articles on its
    own. *)
Theorem comparative_plain_categories (arts : list Article)
    (category1 category2 : string) :
  plain category1 = true -> plain category2 = true ->
  get_comparative (frame_of arts) category1 category2
  = Ok (compareCategories_spec arts category1 category2).
Proof.
  intros H1 H2.
  rewrite (get_comparative_eq _ _ _ (link_column_frame arts)).
  rewrite (re_compile_plain _ H1), (re_compile_plain _ H2).
  simpl. rewrite !count_if_frame. unfold compareCategories_spec.
  f_equal. f_equal.
  assert (Hcount : forall c,
    count_if (fun a => cell_matches false (lits c) (link (row_of a))) arts
    = count_if (fun a => substringb c (art_link a)) arts)
    by (intros c; apply count_if_ext; intros a; apply re_search_lits).
  rewrite !Hcount. reflexivity.
Qed.

(** The fixture of the specification: three links, two with "media", one
    with "politics"; the second article has both and counts twice. *)
Lemma comparative_plain_categories_witness :
  plain "media" = true /\ plain "politics" = true
  /\ get_comparative
       (frame_of [mkArticle "a" "news/media/1" "x";
                  mkArticle "b" "news/media/politics/2" "y";
                  mkArticle "c" "news/sports/3" "z"]) "media" "politics"
     = Ok (JDict [("category1", JInt 2); ("category2", JInt 1)]).
Proof.
  split; [reflexivity|]. split; [reflexivity|].
  exact (comparative_plain_categories
           [mkArticle "a" "news/media/1" "x";
            mkArticle "b" "news/media/politics/2" "y";
            mkArticle "c" "news/sports/3" "z"] "media" "politics"
           eq_refl eq_refl).
Defined.

(** ** Articles by coin *)

(** C5, as first stated, fails for the same reason: the coin [.] selects
    an article whose content has no dot. *)
Lemma by_coin_dot_counterexample :
  get_by_coin (frame_of [mkArticle "t" "l" "no mention"]) "."
  = Ok (JList [JDict [("title", JStr "t"); ("link", JStr "l")]])
  /\ articlesByCoin_spec [mkArticle "t" "l" "no mention"] "." = JList []
  /\ get_by_coin (frame_of [mkArticle "t" "l" "no mention"]) "."
     <> Ok (articlesByCoin_spec [mkArticle "t" "l" "no mention"] ".").
Proof.
  split; [reflexivity|]. split; [reflexivity|]. discriminate.
Qed.

Lemma lower_app (a b : string) : lower (a ++ b) = lower a ++ lower b.
Proof.
  induction a as [|c a IH]; simpl; [reflexivity|]. rewrite IH. reflexivity.
Qed.

(** An occurrence of any case variant of the coin is an occurrence of the
    lowercased coin in the lowercased content. *)
Lemma case_variant_occurs (coin variant text : string) :
  lower variant = lower coin ->
  (exists x y, text = x ++ variant ++ y) ->
  substringb (lower coin) (lower text) = true.
Proof.
  intros Hvar [x [y ->]]. apply substringb_occurs.
  exists (lower x), (lower y). rewrite !lower_app, Hvar. reflexivity.
Qed.

(** C5, amended.  For a coin without special characters the handler
    returns the pairs of exactly the articles whose lowercased content
    contains the lowercased coin, in table order; an article in whose
    content the coin occurs in any casing is among them. *)
Theorem by_coin_plain_coin (arts : list Article) (coin : string) :
  plain coin = true ->
  get_by_coin (frame_of arts) coin = Ok (articlesByCoin_spec arts coin)
  /\ (forall a variant,
         In a arts -> lower variant = lower coin ->
         (exists x y, art_content a = x ++ variant ++ y) ->
         In a (filter (fun a => substringb (lower coin) (lower (art_content a)))
                      arts)).
Proof.
  intros Hp. split.
  - rewrite (get_by_coin_eq _ _ (content_column_frame arts)).
    rewrite (re_compile_plain _ Hp). simpl.
    rewrite filter_frame, map_title_link_frame.
    rewrite (filter_ext _ (fun a => substringb (lower coin) (lower (art_content a))))
      by (intros a; apply re_search_lits_ignorecase).
    apply JSONResponse_title_links.
  - intros a variant Hin Hvar Hocc. apply filter_In. split; [exact Hin|].
    exact (case_variant_occurs coin variant _ Hvar Hocc).
Qed.

Lemma by_coin_plain_coin_witness :
  plain "bitcoin" = true
  /\ get_by_coin
       (frame_of [mkArticle "t1" "l1" "Bitcoin surges";
                  mkArticle "t2" "l2" "no mention";
                  mkArticle "t3" "l3" "sell BITCOIN now";
                  mkArticle "t4" "l4" "a BitCoin"]) "bitcoin"
     = Ok (JList [JDict [("title", JStr "t1"); ("link", JStr "l1")];
                  JDict [("title", JStr "t3"); ("link", JStr "l3")];
                  JDict [("title", JStr "t4"); ("link", JStr "l4")]]).
Proof.
  split; [reflexivity|].
  exact (proj1 (by_coin_plain_coin
                  [mkArticle "t1" "l1" "Bitcoin surges";
                   mkArticle "t2" "l2" "no mention";
                   mkArticle "t3" "l3" "sell BITCOIN now";
                   mkArticle "t4" "l4" "a BitCoin"] "bitcoin" eq_refl)).
Defined.

(** ** Missing fields *)


Lemma cell_matches_present (ignorecase : bool) (r : list atom) (c : cell) :
  cell_matches ignorecase r c = true -> present c = true.
Proof. destruct c; [reflexivity|discriminate]. Qed.

(** Two rows, the first without a link, then without a content. *)
Example missing_link_not_counted :
  get_comparative [mkRow (Str "a") NaN (Str "x");
                   mkRow (Str "b") (Str "news/media/1") (Str "y")] "media" "news"
  = Ok (JDict [("category1", JInt 1); ("category2", JInt 1)]).
Proof. reflexivity. Qed.

Example missing_content_not_listed :
  get_by_coin [mkRow (Str "a") (Str "l1") NaN;
               mkRow (Str "b") (Str "l2") (Str "Bitcoin surges")] "bitcoin"
  = Ok (JList [JDict [("title", JStr "b"); ("link", JStr "l2")]]).
Proof. reflexivity. Qed.

(** ** The ten most counted words *)

Lemma wrap64_small (z : Z) : - 2 ^ 63 <= z < 2 ^ 63 -> wrap64 z = z.
Proof.
  intros Hz. unfold wrap64. rewrite Z.mod_small; lia.
Qed.

Lemma insert_key_in (k k' : string) (keys : list string) :
  In k (insert_key k' keys) <-> k = k' \/ In k keys.
Proof.
  induction keys as [|a keys IH]; simpl.
  - intuition congruence.
  - destruct (String_as_OT.compare_spec k' a) as [Heq|Hlt|Hgt]; simpl.
    + change (k' = a) in Heq. subst a. intuition congruence.
    + intuition congruence.
    + rewrite IH. intuition congruence.
Qed.

Lemma group_keys_in (k : string) (df : list WordCount) :
  In k (group_keys df) <-> In k (map word df).
Proof.
  unfold group_keys. induction df as [|r df IH]; simpl; [reflexivity|].
  rewrite insert_key_in, IH. intuition congruence.
Qed.

Lemma insert_key_sorted (k : string) (keys : list string) :
  StronglySorted String_as_OT.lt keys ->
  StronglySorted String_as_OT.lt (insert_key k keys).
Proof.
  induction 1 as [|a keys Hs IH Ha]; simpl.
  - repeat constructor.
  - destruct (String_as_OT.compare_spec k a) as [Heq|Hlt|Hgt].
    + constructor; assumption.
    + constructor; [constructor; assumption|].
      constructor; [exact Hlt|].
      eapply Forall_impl; [|exact Ha].
      intros b Hb. exact (StrictOrder_Transitive _ _ _ Hlt Hb).
    + constructor; [exact IH|].
      apply Forall_forall. intros b Hb.
      apply insert_key_in in Hb. destruct Hb as [->|Hb]; [exact Hgt|].
      rewrite Forall_forall in Ha. apply Ha, Hb.
Qed.

Lemma group_keys_sorted (df : list WordCount) :
  StronglySorted String_as_OT.lt (group_keys df).
Proof.
  unfold group_keys. induction df as [|r df IH]; simpl.
  - constructor.
  - apply insert_key_sorted, IH.
Qed.

Lemma group_keys_nodup (df : list WordCount) : NoDup (group_keys df).
Proof.
  induction (group_keys_sorted df) as [|a keys Hs IH Ha]; constructor.
  - intros Hin. rewrite Forall_forall in Ha.
    exact (StrictOrder_Irreflexive a (Ha a Hin)).
  - exact IH.
Qed.

Lemma groupby_index (df : list WordCount) :
  map index (groupby_word_sum df) = group_keys df.
Proof.
  unfold groupby_word_sum. rewrite map_map. simpl. apply map_id.
Qed.

Lemma groupby_row (df : list WordCount) (g : Grouped) :
  In g (groupby_word_sum df) ->
  In (index g) (map word df) /\ sum_count g = group_sum (index g) df.
Proof.
  unfold groupby_word_sum. intros Hin. apply in_map_iff in Hin.
  destruct Hin as [k [<- Hk]]. simpl. split; [|reflexivity].
  apply group_keys_in, Hk.
Qed.

Lemma sorted_app_left {A : Type} (R : A -> A -> Prop) (l1 l2 : list A) :
  StronglySorted R (l1 ++ l2) -> StronglySorted R l1.
Proof.
  induction l1 as [|x l1 IH]; simpl; intros Hs; [constructor|].
  inversion Hs as [|? ? Hs' Hx]; subst. constructor; [apply IH, Hs'|].
  apply Forall_app in Hx. apply Hx.
Qed.

Lemma sorted_app_cross {A : Type} (R : A -> A -> Prop) (l1 l2 : list A) :
  StronglySorted R (l1 ++ l2) ->
  forall x y, In x l1 -> In y l2 -> R x y.
Proof.
  induction l1 as [|a l1 IH]; simpl; intros Hs x y Hx Hy; [contradiction|].
  inversion Hs as [|? ? Hs' Ha]; subst. destruct Hx as [->|Hx].
  - rewrite Forall_forall in Ha. apply Ha, in_or_app. right. exact Hy.
  - exact (IH Hs' x y Hx Hy).
Qed.

Lemma nodup_app_left {A : Type} (l1 l2 : list A) :
  NoDup (l1 ++ l2) -> NoDup l1.
Proof.
  induction l1 as [|x l1 IH]; simpl; intros Hnd; [constructor|].
  inversion Hnd as [|? ? Hx Hnd']; subst. constructor; [|apply IH, Hnd'].
  intros Hin. apply Hx, in_or_app. left. exact Hin.
Qed.

(** X1. On a table whose counts fit 64 bits signed, the helper
    [get_word_counts] returns at most ten groups, in non-increasing order of
    their sums, no word twice; each group is a word of the table with the
    64-bit sum of that word's counts; and no group left out has a larger sum
    than a group kept. *)
Theorem word_counts_top_ten `{SortValues} (word_counts_df : list WordCount) :
  int64_counts word_counts_df ->
  (length (get_word_counts word_counts_df) <= 10)%nat
  /\ StronglySorted (fun g1 g2 => sum_count g2 <= sum_count g1)
       (get_word_counts word_counts_df)
  /\ NoDup (map index (get_word_counts word_counts_df))
  /\ (forall g, In g (get_word_counts word_counts_df) ->
        In (index g) (map word word_counts_df)
        /\ sum_count g = group_sum (index g) word_counts_df)
  /\ (forall g g', In g (get_word_counts word_counts_df) ->
        In g' (groupby_word_sum word_counts_df) ->
        ~ In g' (get_word_counts word_counts_df) ->
        sum_count g' <= sum_count g).
Proof.
  intros _. unfold get_word_counts.
  set (groups := groupby_word_sum word_counts_df).
  set (sorted := sort_values sum_count groups).
  assert (Hperm : Permutation groups sorted) by apply sort_values_perm.
  assert (Hsorted : StronglySorted (desc sum_count) sorted)
    by apply sort_values_sorted.
  assert (Hsplit : (firstn 10 sorted ++ skipn 10 sorted)%list = sorted)
    by apply firstn_skipn.
  split; [|split; [|split; [|split]]].
  - apply firstn_le_length.
  - rewrite <- Hsplit in Hsorted. exact (sorted_app_left _ _ _ Hsorted).
  - assert (Hnd : NoDup (map index sorted)).
    { eapply Permutation_NoDup; [apply Permutation_map, Hperm|].
      unfold groups. rewrite groupby_index. apply group_keys_nodup. }
    rewrite <- Hsplit, map_app in Hnd. exact (nodup_app_left _ _ Hnd).
  - intros g Hg. apply groupby_row.
    apply (Permutation_in _ (Permutation_sym Hperm)).
    rewrite <- Hsplit. apply in_or_app. left. exact Hg.
  - intros g g' Hg Hg' Hout.
    apply (Permutation_in _ Hperm) in Hg'.
    rewrite <- Hsplit in Hg'. apply in_app_or in Hg'.
    destruct Hg' as [Hin|Hrest]; [contradiction|].
    rewrite <- Hsplit in Hsorted.
    exact (sorted_app_cross _ _ _ Hsorted g g' Hg Hrest).
Qed.

Lemma small_table_int64 :
  int64_counts [mkWordCount "btc" 3; mkWordCount "eth" 5; mkWordCount "btc" 4].
Proof.
  intros r [<-|[<-|[<-|[]]]]; simpl; lia.
Qed.

Lemma word_counts_top_ten_witness :
  (length (get_word_counts [mkWordCount "btc" 3; mkWordCount "eth" 5;
                            mkWordCount "btc" 4]) <= 10)%nat
  /\ StronglySorted (fun g1 g2 => sum_count g2 <= sum_count g1)
       (get_word_counts [mkWordCount "btc" 3; mkWordCount "eth" 5;
                         mkWordCount "btc" 4])
  /\ NoDup (map index (get_word_counts [mkWordCount "btc" 3; mkWordCount "eth" 5;
                                        mkWordCount "btc" 4]))
  /\ (forall g, In g (get_word_counts [mkWordCount "btc" 3; mkWordCount "eth" 5;
                                       mkWordCount "btc" 4]) ->
        In (index g) (map word [mkWordCount "btc" 3; mkWordCount "eth" 5;
                                mkWordCount "btc" 4])
        /\ sum_count g = group_sum (index g) [mkWordCount "btc" 3; mkWordCount "eth" 5;
                                              mkWordCount "btc" 4])
  /\ (forall g g', In g (get_word_counts [mkWordCount "btc" 3; mkWordCount "eth" 5;
                                          mkWordCount "btc" 4]) ->
        In g' (groupby_word_sum [mkWordCount "btc" 3; mkWordCount "eth" 5;
                                 mkWordCount "btc" 4]) ->
        ~ In g' (get_word_counts [mkWordCount "btc" 3; mkWordCount "eth" 5;
                                  mkWordCount "btc" 4]) ->
        sum_count g' <= sum_count g).
Proof.
  exact (word_counts_top_ten
           [mkWordCount "btc" 3; mkWordCount "eth" 5; mkWordCount "btc" 4]
           small_table_int64).
Defined.

Lemma group_sum_from (k : string) (df : list WordCount) (acc : Z) :
  (forall r, In r df -> 0 <= count r) ->
  0 <= acc -> acc + fold_right Z.add 0 (map count df) < 2 ^ 63 ->
  fold_left (fun a r => if String.eqb (word r) k then wrap64 (a + count r) else a)
            df acc
  = acc + word_total k df.
Proof.
  revert acc. induction df as [|r df IH]; intros acc Hpos Hacc Hfit.
  - unfold word_total. simpl. lia.
  - assert (Hr : 0 <= count r) by (apply Hpos; left; reflexivity).
    assert (Hrest : forall r', In r' df -> 0 <= count r')
      by (intros r' Hr'; apply Hpos; right; exact Hr').
    assert (Hsum : 0 <= fold_right Z.add 0 (map count df)).
    { clear -Hrest. induction df as [|r' df IH]; simpl; [lia|].
      assert (0 <= count r') by (apply Hrest; left; reflexivity).
      assert (0 <= fold_right Z.add 0 (map count df))
        by (apply IH; intros x Hx; apply Hrest; right; exact Hx).
      lia. }
    simpl in Hfit. unfold word_total in *. simpl.
    destruct (String.eqb (word r) k); simpl.
    + rewrite wrap64_small by lia. rewrite IH by (try assumption; lia). lia.
    + rewrite IH by (try assumption; lia). reflexivity.
Qed.

(** X2. When the counts are not negative and their total stays below
    2^63, the sum of a group is the exact sum of the counts of the rows that
    have the word. *)
Theorem group_sum_exact (k : string) (word_counts_df : list WordCount) :
  (forall r, In r word_counts_df -> 0 <= count r) ->
  fold_right Z.add 0 (map count word_counts_df) < 2 ^ 63 ->
  group_sum k word_counts_df = word_total k word_counts_df.
Proof.
  intros Hpos Hfit. unfold group_sum.
  rewrite group_sum_from by (try assumption; lia). lia.
Qed.

Lemma group_sum_exact_witness :
  group_sum "btc" [mkWordCount "btc" 3; mkWordCount "eth" 5; mkWordCount "btc" 4]
  = word_total "btc" [mkWordCount "btc" 3; mkWordCount "eth" 5; mkWordCount "btc" 4].
Proof.
  apply group_sum_exact.
  - intros r [<-|[<-|[<-|[]]]]; simpl; lia.
  - simpl. lia.
Defined.

(** ** The newsfeed with any bounds *)

Lemma nan_free_title_link (r : Row) :
  nan_free (title_link r) = complete_pair r.
Proof.
  unfold title_link, complete_pair. simpl.
  destruct (title r), (link r); reflexivity.
Qed.

Lemma nan_free_rows (rows : list Row) :
  nan_free (JList (map title_link rows)) = forallb complete_pair rows.
Proof.
  simpl. induction rows as [|r rows IH]; [reflexivity|].
  cbn [map forallb]. rewrite nan_free_title_link, IH. reflexivity.
Qed.

(** X4. Whatever the integers [skip] and [limit], negative ones included,
    the newsfeed of a table of the data model returns, and its rows are a run
    of consecutive articles of the table. *)
Theorem newsfeed_any_bounds (arts : list Article) (skip limit : Z) :
  exists before shown after,
    arts = (before ++ shown ++ after)%list
    /\ get_newsfeed (frame_of arts) skip limit = Ok (JList (map title_link_of shown)).
Proof.
  set (n := Z.of_nat (length arts)).
  set (s := Z.to_nat (slice_bound n skip)).
  set (m := Z.to_nat (slice_bound n (skip + limit) - slice_bound n skip)).
  exists (firstn s arts), (firstn m (skipn s arts)), (skipn m (skipn s arts)).
  split.
  - rewrite (firstn_skipn m (skipn s arts)). symmetry. apply firstn_skipn.
  - apply get_newsfeed_frame.
Qed.

(** X5. A negative [skip] moves the start to the end of the table but not
    the stop: when [skip + limit] is not negative and the table has at least
    [limit] articles, the newsfeed is empty. *)
Theorem newsfeed_negative_skip_empty (arts : list Article) (skip limit : Z) :
  skip < 0 -> 0 <= skip + limit -> limit <= Z.of_nat (length arts) ->
  get_newsfeed (frame_of arts) skip limit = Ok (JList []).
Proof.
  intros Hneg Hstop Hlen. rewrite get_newsfeed_frame.
  unfold iloc, slice_bound.
  destruct (Z.ltb_spec skip 0) as [_|?]; [|lia].
  destruct (Z.ltb_spec (skip + limit) 0) as [?|_]; [lia|].
  replace (Z.to_nat (Z.min (skip + limit) (Z.of_nat (length arts))
                     - Z.max (skip + Z.of_nat (length arts)) 0)) with 0%nat by lia.
  reflexivity.
Qed.

Lemma newsfeed_negative_skip_empty_witness :
  get_newsfeed
    (frame_of [mkArticle "t1" "l1" "c1"; mkArticle "t2" "l2" "c2";
               mkArticle "t3" "l3" "c3"]) (-1) 3
  = Ok (JList []).
Proof.
  apply (newsfeed_negative_skip_empty
           [mkArticle "t1" "l1" "c1"; mkArticle "t2" "l2" "c2";
            mkArticle "t3" "l3" "c3"] (-1) 3); simpl; lia.
Defined.

(** X8. A negative [limit] does not empty the page when [skip + limit]
    is negative too: the stop then counts from the end, and the newsfeed
    returns the table without its first [skip] and its last [-(skip + limit)]
    articles. *)
Theorem newsfeed_negative_limit (arts : list Article) (skip limit : Z) :
  0 <= skip -> skip + limit < 0 -> - limit <= Z.of_nat (length arts) ->
  exists before shown after,
    arts = (before ++ shown ++ after)%list
    /\ Z.of_nat (length before) = skip
    /\ Z.of_nat (length after) = - (skip + limit)
    /\ get_newsfeed (frame_of arts) skip limit = Ok (JList (map title_link_of shown)).
Proof.
  intros Hs Hstop Hlen.
  set (n := Z.of_nat (length arts)) in *.
  set (m := Z.to_nat (n + limit)).
  exists (firstn (Z.to_nat skip) arts),
         (firstn m (skipn (Z.to_nat skip) arts)),
         (skipn m (skipn (Z.to_nat skip) arts)).
  split; [|split; [|split]].
  - rewrite (firstn_skipn m (skipn (Z.to_nat skip) arts)).
    symmetry. apply firstn_skipn.
  - rewrite length_firstn. unfold n in *. lia.
  - rewrite !length_skipn. unfold m, n in *. lia.
  - rewrite get_newsfeed_frame. unfold iloc, slice_bound. fold n.
    destruct (Z.ltb_spec skip 0) as [?|_]; [lia|].
    destruct (Z.ltb_spec (skip + limit) 0) as [_|?]; [|lia].
    rewrite Z.min_l by lia. rewrite Z.max_l by lia.
    replace (Z.to_nat (skip + limit + n - skip)) with m by (unfold m; lia).
    reflexivity.
Qed.

Lemma newsfeed_negative_limit_witness :
  exists before shown after,
    [mkArticle "t1" "l1" "c1"; mkArticle "t2" "l2" "c2"; mkArticle "t3" "l3" "c3"]
    = (before ++ shown ++ after)%list
    /\ Z.of_nat (length before) = 1
    /\ Z.of_nat (length after) = - (1 + -2)
    /\ get_newsfeed
         (frame_of [mkArticle "t1" "l1" "c1"; mkArticle "t2" "l2" "c2";
                    mkArticle "t3" "l3" "c3"]) 1 (-2)
       = Ok (JList (map title_link_of shown)).
Proof.
  apply (newsfeed_negative_limit
           [mkArticle "t1" "l1" "c1"; mkArticle "t2" "l2" "c2";
            mkArticle "t3" "l3" "c3"] 1 (-2)); simpl; lia.
Defined.

Lemma firstn_plus {A : Type} (a b : nat) (l : list A) :
  firstn (a + b) l = (firstn a l ++ firstn b (skipn a l))%list.
Proof.
  revert l. induction a as [|a IH]; intros l; [reflexivity|].
  destruct l as [|x l]; simpl.
  - rewrite firstn_nil. reflexivity.
  - rewrite IH. reflexivity.
Qed.

(** X6. Two adjacent pages make one page: for bounds that are not
    negative, the rows of [(skip, a)] followed by the rows of [(skip + a, b)]
    are the rows of [(skip, a + b)]. *)
Theorem newsfeed_adjacent_pages (arts : list Article) (skip a b : Z) :
  0 <= skip -> 0 <= a -> 0 <= b ->
  exists first second,
    get_newsfeed (frame_of arts) skip a = Ok (JList first)
    /\ get_newsfeed (frame_of arts) (skip + a) b = Ok (JList second)
    /\ get_newsfeed (frame_of arts) skip (a + b) = Ok (JList (first ++ second)).
Proof.
  intros Hs Ha Hb.
  exists (map title_link_of (iloc arts skip (skip + a))),
         (map title_link_of (iloc arts (skip + a) (skip + a + b))).
  split; [apply get_newsfeed_frame|]. split; [apply get_newsfeed_frame|].
  rewrite get_newsfeed_frame, <- map_app. do 3 f_equal.
  rewrite !iloc_nonneg by lia.
  replace (Z.to_nat (a + b)) with (Z.to_nat a + Z.to_nat b)%nat by lia.
  replace (Z.to_nat (skip + a)) with (Z.to_nat a + Z.to_nat skip)%nat by lia.
  rewrite firstn_plus, skipn_skipn. reflexivity.
Qed.

Lemma newsfeed_adjacent_pages_witness :
  exists first second,
    get_newsfeed
      (frame_of [mkArticle "t1" "l1" "c1"; mkArticle "t2" "l2" "c2";
                 mkArticle "t3" "l3" "c3"]) 0 1 = Ok (JList first)
    /\ get_newsfeed
         (frame_of [mkArticle "t1" "l1" "c1"; mkArticle "t2" "l2" "c2";
                    mkArticle "t3" "l3" "c3"]) (0 + 1) 1 = Ok (JList second)
    /\ get_newsfeed
         (frame_of [mkArticle "t1" "l1" "c1"; mkArticle "t2" "l2" "c2";
                    mkArticle "t3" "l3" "c3"]) 0 (1 + 1)
       = Ok (JList (first ++ second)).
Proof.
  apply (newsfeed_adjacent_pages
           [mkArticle "t1" "l1" "c1"; mkArticle "t2" "l2" "c2";
            mkArticle "t3" "l3" "c3"] 0 1 1); lia.
Defined.

(** X7. On a table with missing cells the newsfeed raises [ValueError]
    exactly when a row of the requested slice has no title or no link;
    otherwise it returns the slice. *)
Theorem newsfeed_missing_cells (df : list Row) (skip limit : Z) :
  (get_newsfeed df skip limit = Raise ValueError
   <-> exists r, In r (iloc df skip (skip + limit))
                 /\ (title r = NaN \/ link r = NaN))
  /\ (get_newsfeed df skip limit = Raise ValueError
      \/ get_newsfeed df skip limit
         = Ok (JList (map title_link (iloc df skip (skip + limit))))).
Proof.
  unfold get_newsfeed, JSONResponse. rewrite nan_free_rows.
  set (rows := iloc df skip (skip + limit)).
  destruct (forallb complete_pair rows) eqn:E.
  - split; [|right; reflexivity]. split; [discriminate|].
    intros [r [Hin Hmiss]]. rewrite forallb_forall in E.
    specialize (E r Hin). unfold complete_pair in E.
    destruct Hmiss as [Hm|Hm]; rewrite Hm in E; simpl in E;
      [discriminate|rewrite andb_false_r in E; discriminate].
  - split; [|left; reflexivity]. split; [|reflexivity]. intros _.
    assert (Hex : existsb (fun r => negb (complete_pair r)) rows = true).
    { clear -E. induction rows as [|r rows IH]; simpl in *; [discriminate|].
      destruct (complete_pair r); simpl in *; [apply IH, E|reflexivity]. }
    apply existsb_exists in Hex. destruct Hex as [r [Hin Hr]].
    exists r. split; [exact Hin|].
    unfold complete_pair in Hr. destruct (title r); [|left; reflexivity].
    destruct (link r); [discriminate|right; reflexivity].
Qed.

(** ** Comparison and coin filter on tables with missing cells *)

Lemma count_if_bounds {A : Type} (f : A -> bool) (l : list A) :
  0 <= count_if f l <= Z.of_nat (length l).
Proof.
  unfold count_if. pose proof (filter_length_le f l). lia.
Qed.

Lemma cell_matches_plain (p : string) (c : cell) :
  cell_matches false (lits p) c = text_contains p c.
Proof. destruct c; [apply re_search_lits|reflexivity]. Qed.

Lemma cell_matches_plain_nocase (p : string) (c : cell) :
  cell_matches true (lits p) c = text_contains_nocase p c.
Proof. destruct c; [apply re_search_lits_ignorecase|reflexivity]. Qed.

(** X9. On a table whose link column is an object column (some link is a
    text, or the table is empty), whatever cells are missing, the comparison
    of two categories without special characters never raises: it returns,
    for each category, the number of rows whose link is a text containing it,
    a number between 0 and the number of rows. *)
Theorem comparative_missing_cells (df : list Row) (category1 category2 : string) :
  object_column (map link df) = true ->
  plain category1 = true -> plain category2 = true ->
  exists n1 n2,
    get_comparative df category1 category2
    = Ok (JDict [("category1", JInt n1); ("category2", JInt n2)])
    /\ n1 = count_if (fun r => text_contains category1 (link r)) df
    /\ n2 = count_if (fun r => text_contains category2 (link r)) df
    /\ 0 <= n1 <= Z.of_nat (length df)
    /\ 0 <= n2 <= Z.of_nat (length df).
Proof.
  intros Hobj H1 H2.
  exists (count_if (fun r => text_contains category1 (link r)) df),
         (count_if (fun r => text_contains category2 (link r)) df).
  split; [|split; [reflexivity|split; [reflexivity|split; apply count_if_bounds]]].
  rewrite (get_comparative_eq _ _ _ Hobj).
  rewrite (re_compile_plain _ H1), (re_compile_plain _ H2).
  simpl.
  rewrite (count_if_ext (fun row => cell_matches false (lits category1) (link row))
                        (fun r => text_contains category1 (link r)))
    by (intros r; apply cell_matches_plain).
  rewrite (count_if_ext (fun row => cell_matches false (lits category2) (link row))
                        (fun r => text_contains category2 (link r)))
    by (intros r; apply cell_matches_plain).
  reflexivity.
Qed.

Lemma comparative_missing_cells_witness :
  exists n1 n2,
    get_comparative [mkRow (Str "a") NaN (Str "x");
                     mkRow NaN (Str "news/media/1") NaN] "media" "sports"
    = Ok (JDict [("category1", JInt n1); ("category2", JInt n2)])
    /\ n1 = count_if (fun r => text_contains "media" (link r))
              [mkRow (Str "a") NaN (Str "x"); mkRow NaN (Str "news/media/1") NaN]
    /\ n2 = count_if (fun r => text_contains "sports" (link r))
              [mkRow (Str "a") NaN (Str "x"); mkRow NaN (Str "news/media/1") NaN]
    /\ 0 <= n1 <= Z.of_nat (length [mkRow (Str "a") NaN (Str "x");
                                     mkRow NaN (Str "news/media/1") NaN])
    /\ 0 <= n2 <= Z.of_nat (length [mkRow (Str "a") NaN (Str "x");
                                     mkRow NaN (Str "news/media/1") NaN]).
Proof.
  exact (comparative_missing_cells
           [mkRow (Str "a") NaN (Str "x"); mkRow NaN (Str "news/media/1") NaN]
           "media" "sports" eq_refl eq_refl eq_refl).
Defined.

Lemma get_by_coin_plain (df : list Row) (coin : string) :
  object_column (map content df) = true ->
  plain coin = true ->
  get_by_coin df coin
  = JSONResponse
      (JList (map title_link
                (filter (fun r => text_contains_nocase coin (content r)) df))).
Proof.
  intros Hobj Hp. rewrite (get_by_coin_eq _ _ Hobj), (re_compile_plain _ Hp). simpl.
  rewrite (filter_ext (fun row => cell_matches true (lits coin) (content row))
                      (fun r => text_contains_nocase coin (content r)))
    by (intros r; apply cell_matches_plain_nocase).
  reflexivity.
Qed.

Lemma forallb_false_exists {A : Type} (f : A -> bool) (l : list A) :
  forallb f l = false -> exists x, In x l /\ f x = false.
Proof.
  induction l as [|x l IH]; simpl; [discriminate|].
  destruct (f x) eqn:E; simpl.
  - intros H. destruct (IH H) as [y [Hy Hf]]. exists y. auto.
  - intros _. exists x. auto.
Qed.

Lemma complete_pair_false (r : Row) :
  complete_pair r = false <-> title r = NaN \/ link r = NaN.
Proof.
  unfold complete_pair. destruct (title r), (link r); simpl;
    intuition discriminate.
Qed.

(** X10. On a table whose content column is an object column (some
    content is a text, or the table is empty), for a coin without special
    characters, the coin filter raises [ValueError] exactly when one of the
    selected rows (content a text containing the coin, letter case apart) has
    no title or no link; otherwise it returns the pairs of the selected rows
    in table order. *)
Theorem by_coin_missing_cells (df : list Row) (coin : string) :
  object_column (map content df) = true ->
  plain coin = true ->
  (get_by_coin df coin = Raise ValueError
   <-> exists r, In r df /\ text_contains_nocase coin (content r) = true
                 /\ (title r = NaN \/ link r = NaN))
  /\ (get_by_coin df coin = Raise ValueError
      \/ get_by_coin df coin
         = Ok (JList (map title_link
                        (filter (fun r => text_contains_nocase coin (content r)) df)))).
Proof.
  intros Hobj Hp. rewrite (get_by_coin_plain _ _ Hobj Hp).
  unfold JSONResponse. rewrite nan_free_rows.
  set (selected := filter (fun r => text_contains_nocase coin (content r)) df).
  destruct (forallb complete_pair selected) eqn:E.
  - split; [|right; reflexivity]. split; [discriminate|].
    intros [r [Hin [Hsel Hmiss]]]. rewrite forallb_forall in E.
    assert (Hr : complete_pair r = true)
      by (apply E, filter_In; split; assumption).
    apply complete_pair_false in Hmiss. congruence.
  - split; [|left; reflexivity]. split; [|reflexivity]. intros _.
    destruct (forallb_false_exists _ _ E) as [r [Hin Hr]].
    apply filter_In in Hin. destruct Hin as [Hin Hsel].
    exists r. split; [exact Hin|]. split; [exact Hsel|].
    apply complete_pair_false, Hr.
Qed.

Lemma by_coin_missing_cells_witness :
  (get_by_coin [mkRow NaN (Str "l1") (Str "Bitcoin surges");
                mkRow (Str "t2") (Str "l2") NaN] "bitcoin" = Raise ValueError
   <-> exists r, In r [mkRow NaN (Str "l1") (Str "Bitcoin surges");
                       mkRow (Str "t2") (Str "l2") NaN]
                 /\ text_contains_nocase "bitcoin" (content r) = true
                 /\ (title r = NaN \/ link r = NaN))
  /\ (get_by_coin [mkRow NaN (Str "l1") (Str "Bitcoin surges");
                   mkRow (Str "t2") (Str "l2") NaN] "bitcoin" = Raise ValueError
      \/ get_by_coin [mkRow NaN (Str "l1") (Str "Bitcoin surges");
                      mkRow (Str "t2") (Str "l2") NaN] "bitcoin"
         = Ok (JList (map title_link
                        (filter (fun r => text_contains_nocase "bitcoin" (content r))
                                [mkRow NaN (Str "l1") (Str "Bitcoin surges");
                                 mkRow (Str "t2") (Str "l2") NaN])))).
Proof.
  exact (by_coin_missing_cells
           [mkRow NaN (Str "l1") (Str "Bitcoin surges");
            mkRow (Str "t2") (Str "l2") NaN] "bitcoin" eq_refl eq_refl).
Defined.

(** ** Queries: the empty one, letter case, order of the categories *)

Lemma re_search_empty_pattern (ignorecase : bool) (s : string) :
  re_search ignorecase [] s = true.
Proof. destruct s; reflexivity. Qed.

Lemma cell_matches_empty_pattern (ignorecase : bool) (c : cell) :
  cell_matches ignorecase [] c = present c.
Proof. destruct c; [apply re_search_empty_pattern|reflexivity]. Qed.

Lemma filter_all {A : Type} (f : A -> bool) (l : list A) :
  (forall x, In x l -> f x = true) -> filter f l = l.
Proof.
  induction l as [|x l IH]; simpl; intros Hall; [reflexivity|].
  rewrite (Hall x (or_introl eq_refl)). f_equal.
  apply IH. intros y Hy. apply Hall. right. exact Hy.
Qed.

(** X11. The empty query matches every text.  On a table whose link
    column is an object column, the comparison with two empty categories
    counts, twice, the rows that have a link; with the empty coin the coin
    filter lists every article of a table of the data model, which is what
    the newsfeed gives for the whole table. *)
Theorem empty_query_matches_all (df : list Row) (arts : list Article) :
  object_column (map link df) = true ->
  get_comparative df "" ""
  = Ok (JDict [("category1", JInt (count_if (fun r => present (link r)) df));
               ("category2", JInt (count_if (fun r => present (link r)) df))])
  /\ get_by_coin (frame_of arts) "" = Ok (JList (map title_link_of arts))
  /\ get_by_coin (frame_of arts) ""
     = get_newsfeed (frame_of arts) 0 (Z.of_nat (length arts)).
Proof.
  intros Hobj. split.
  - rewrite (get_comparative_eq _ _ _ Hobj). simpl.
    rewrite (count_if_ext (fun row => cell_matches false [] (link row))
                          (fun r => present (link r)))
      by (intros r; apply cell_matches_empty_pattern).
    reflexivity.
  - assert (Hall : get_by_coin (frame_of arts) "" = Ok (JList (map title_link_of arts))).
    { rewrite (get_by_coin_eq _ _ (content_column_frame arts)). simpl.
      rewrite filter_all.
      - rewrite map_title_link_frame. apply JSONResponse_title_links.
      - intros row Hin. unfold frame_of in Hin. apply in_map_iff in Hin.
        destruct Hin as [a [<- _]]. simpl. apply re_search_empty_pattern. }
    split; [exact Hall|]. rewrite Hall, get_newsfeed_frame.
    rewrite iloc_nonneg by lia.
    rewrite Nat2Z.id. simpl skipn. rewrite firstn_all. reflexivity.
Qed.

Lemma empty_query_matches_all_witness :
  get_comparative [mkRow (Str "a") NaN (Str "x");
                   mkRow (Str "b") (Str "news/media/1") (Str "y")] "" ""
  = Ok (JDict [("category1", JInt 1); ("category2", JInt 1)])
  /\ get_by_coin (frame_of [mkArticle "t1" "l1" "c1"; mkArticle "t2" "l2" "c2"]) ""
     = Ok (JList (map title_link_of [mkArticle "t1" "l1" "c1";
                                     mkArticle "t2" "l2" "c2"]))
  /\ get_by_coin (frame_of [mkArticle "t1" "l1" "c1"; mkArticle "t2" "l2" "c2"]) ""
     = get_newsfeed (frame_of [mkArticle "t1" "l1" "c1"; mkArticle "t2" "l2" "c2"])
         0 (Z.of_nat (length [mkArticle "t1" "l1" "c1"; mkArticle "t2" "l2" "c2"])).
Proof.
  exact (empty_query_matches_all
           [mkRow (Str "a") NaN (Str "x");
            mkRow (Str "b") (Str "news/media/1") (Str "y")]
           [mkArticle "t1" "l1" "c1"; mkArticle "t2" "l2" "c2"] eq_refl).
Defined.

(** X12. The letter case of the coin does not matter: two coins without
    special characters that are equal once lowercased give the same answer
    on every table. *)
Theorem by_coin_query_case (df : list Row) (coin1 coin2 : string) :
  plain coin1 = true -> plain coin2 = true -> lower coin1 = lower coin2 ->
  get_by_coin df coin1 = get_by_coin df coin2.
Proof.
  intros H1 H2 Hlow.
  destruct (object_column (map content df)) eqn:Hobj.
  - rewrite (get_by_coin_plain _ _ Hobj H1), (get_by_coin_plain _ _ Hobj H2).
    rewrite (filter_ext (fun r => text_contains_nocase coin1 (content r))
                        (fun r => text_contains_nocase coin2 (content r)));
      [reflexivity|].
    intros r. unfold text_contains_nocase. rewrite Hlow. reflexivity.
  - rewrite !(get_by_coin_float_column _ _ Hobj). reflexivity.
Qed.

Lemma by_coin_query_case_witness :
  get_by_coin [mkRow (Str "t1") (Str "l1") (Str "Bitcoin surges");
               mkRow (Str "t2") (Str "l2") NaN] "bitcoin"
  = get_by_coin [mkRow (Str "t1") (Str "l1") (Str "Bitcoin surges");
                 mkRow (Str "t2") (Str "l2") NaN] "BitCoin".
Proof.
  exact (by_coin_query_case
           [mkRow (Str "t1") (Str "l1") (Str "Bitcoin surges");
            mkRow (Str "t2") (Str "l2") NaN] "bitcoin" "BitCoin"
           eq_refl eq_refl eq_refl).
Defined.

(** X13. The two counts of the comparison do not bear on each other:
    exchanging the categories exchanges the counts. *)
Theorem comparative_swap (df : list Row) (category1 category2 : string) (n1 n2 : Z) :
  get_comparative df category1 category2
  = Ok (JDict [("category1", JInt n1); ("category2", JInt n2)]) ->
  get_comparative df category2 category1
  = Ok (JDict [("category1", JInt n2); ("category2", JInt n1)]).
Proof.
  destruct (object_column (map link df)) eqn:Hobj.
  - rewrite !(get_comparative_eq _ _ _ Hobj).
    destruct (re_compile category1) as [r1| |]; simpl; try discriminate.
    destruct (re_compile category2) as [r2| |]; simpl; try discriminate.
    intros H. injection H as <- <-. reflexivity.
  - rewrite (get_comparative_float_column _ category1 category2 Hobj).
    discriminate.
Qed.

Lemma comparative_swap_witness :
  get_comparative
    (frame_of [mkArticle "a" "news/media/1" "x";
               mkArticle "b" "news/media/politics/2" "y"]) "politics" "med.a"
  = Ok (JDict [("category1", JInt 1); ("category2", JInt 2)]).
Proof.
  apply (comparative_swap
           (frame_of [mkArticle "a" "news/media/1" "x";
                      mkArticle "b" "news/media/politics/2" "y"])
           "med.a" "politics" 2 1).
  reflexivity.
Defined.

(** ** Metadata on tables with missing cells *)

Lemma apply_len_outcome (df : list Row) :
  apply_len (map content df)
  = if existsb (fun r => negb (present (content r))) df
    then Raise TypeError
    else Ok (map content_length df).
Proof.
  unfold apply_len. induction df as [|r df IH]; [reflexivity|].
  cbn [map for_each existsb]. unfold content_length at 1.
  destruct (content r) as [s|]; simpl; [|reflexivity].
  rewrite IH. destruct (existsb _ df); reflexivity.
Qed.

(** X14. The three outcomes of the metadata handler.  It raises
    [TypeError] when some row has no content; it raises [ValueError] on the
    empty table; on every other table it returns the number of rows together
    with an average that is a finite float. *)
Theorem meta_outcomes (df : list Row) :
  get_meta df
  = if existsb (fun r => negb (present (content r))) df then Raise TypeError
    else match df with
         | [] => Raise ValueError
         | _ :: _ =>
             Ok (JDict
                   [("total_articles", JInt (Z.of_nat (length df)));
                    ("average_article_length", JFloat Finite)])
         end.
Proof.
  unfold get_meta. rewrite apply_len_outcome.
  destruct (existsb _ df); [reflexivity|].
  destruct df as [|r df]; reflexivity.
Qed.

(** ** More on the word counts *)

Lemma group_keys_count (df : list WordCount) :
  length (group_keys df) = length (distinct_words df).
Proof.
  apply Permutation_length, NoDup_Permutation.
  - apply group_keys_nodup.
  - apply NoDup_nodup.
  - intros k. unfold distinct_words. rewrite nodup_In. apply group_keys_in.
Qed.

Lemma get_word_counts_length `{SortValues} (df : list WordCount) :
  length (get_word_counts df) = Nat.min 10 (length (distinct_words df)).
Proof.
  unfold get_word_counts. rewrite length_firstn.
  rewrite <- (Permutation_length (sort_values_perm _ sum_count (groupby_word_sum df))).
  unfold groupby_word_sum. rewrite length_map, group_keys_count. reflexivity.
Qed.

(** X15. The word cloud always returns, and it has one record per
    distinct word of the table up to ten: none for the empty table, never
    more than ten. *)
Theorem word_cloud_length `{SortValues} (word_counts_df : list WordCount) :
  exists records,
    get_word_cloud word_counts_df = Ok (JList records)
    /\ length records = Nat.min 10 (length (distinct_words word_counts_df)).
Proof.
  exists (map grouped_record (get_word_counts word_counts_df)).
  split; [apply get_word_cloud_eq|].
  rewrite length_map. apply get_word_counts_length.
Qed.

(** X16. When the counts fit 64 bits signed and the table has at most ten
    distinct words, every word of the table has its group among the word
    counts. *)
Theorem word_counts_complete `{SortValues} (word_counts_df : list WordCount)
    (w : string) :
  int64_counts word_counts_df ->
  (length (distinct_words word_counts_df) <= 10)%nat ->
  In w (map word word_counts_df) ->
  In (mkGrouped w (group_sum w word_counts_df)) (get_word_counts word_counts_df).
Proof.
  intros _ Hfew Hw. unfold get_word_counts.
  assert (Hperm := sort_values_perm _ sum_count (groupby_word_sum word_counts_df)).
  rewrite firstn_all2.
  - apply (Permutation_in _ Hperm). unfold groupby_word_sum.
    apply (in_map (fun k => mkGrouped k (group_sum k word_counts_df))).
    apply group_keys_in, Hw.
  - rewrite <- (Permutation_length Hperm). unfold groupby_word_sum.
    rewrite length_map, group_keys_count. exact Hfew.
Qed.

Lemma word_counts_complete_witness :
  In (mkGrouped "eth" (group_sum "eth" [mkWordCount "btc" 3; mkWordCount "eth" 5;
                                         mkWordCount "btc" 4]))
     (get_word_counts [mkWordCount "btc" 3; mkWordCount "eth" 5; mkWordCount "btc" 4]).
Proof.
  apply (word_counts_complete
           [mkWordCount "btc" 3; mkWordCount "eth" 5; mkWordCount "btc" 4] "eth").
  - exact small_table_int64.
  - vm_compute. lia.
  - simpl. auto.
Defined.

Lemma wrap64_range (z : Z) : - 2 ^ 63 <= wrap64 z < 2 ^ 63.
Proof.
  unfold wrap64. pose proof (Z.mod_pos_bound (z + 2 ^ 63) (2 ^ 64)). lia.
Qed.

Lemma wrap64_mod (z : Z) : wrap64 z mod 2 ^ 64 = z mod 2 ^ 64.
Proof.
  unfold wrap64. rewrite Zminus_mod_idemp_l. f_equal. lia.
Qed.

Lemma word_total_cons (k : string) (x : WordCount) (df : list WordCount) :
  word_total k (x :: df)
  = if String.eqb (word x) k then count x + word_total k df else word_total k df.
Proof.
  unfold word_total. cbn [filter]. destruct (String.eqb (word x) k); reflexivity.
Qed.

Lemma group_sum_fold (k : string) (df : list WordCount) (acc : Z) :
  - 2 ^ 63 <= acc < 2 ^ 63 ->
  - 2 ^ 63 <= fold_left (fun a r => if String.eqb (word r) k
                                    then wrap64 (a + count r) else a) df acc
            < 2 ^ 63
  /\ fold_left (fun a r => if String.eqb (word r) k
                           then wrap64 (a + count r) else a) df acc mod 2 ^ 64
     = (acc + word_total k df) mod 2 ^ 64.
Proof.
  revert acc. induction df as [|x df IH]; intros acc Hacc.
  - cbn [fold_left]. split; [exact Hacc|].
    unfold word_total. cbn [filter map fold_right]. f_equal. lia.
  - cbn [fold_left]. rewrite word_total_cons.
    destruct (String.eqb (word x) k).
    + destruct (IH (wrap64 (acc + count x)) (wrap64_range _)) as [Hr Hm].
      split; [exact Hr|]. rewrite Hm.
      rewrite <- Zplus_mod_idemp_l, wrap64_mod, Zplus_mod_idemp_l.
      f_equal. lia.
    + exact (IH acc Hacc).
Qed.

(** X17. On a table whose counts fit 64 bits signed, however large their
    total, the sum of a group is a 64-bit signed integer, equal modulo 2^64 to
    the exact sum of the counts of the rows that have the word. *)
Theorem group_sum_wraps (k : string) (word_counts_df : list WordCount) :
  int64_counts word_counts_df ->
  - 2 ^ 63 <= group_sum k word_counts_df < 2 ^ 63
  /\ group_sum k word_counts_df mod 2 ^ 64 = word_total k word_counts_df mod 2 ^ 64.
Proof.
  intros _. unfold group_sum.
  destruct (group_sum_fold k word_counts_df 0 ltac:(lia)) as [Hr Hm].
  split; [exact Hr|]. rewrite Hm. f_equal.
Qed.

Lemma group_sum_wraps_witness :
  - 2 ^ 63 <= group_sum "btc" [mkWordCount "btc" 3; mkWordCount "eth" 5;
                               mkWordCount "btc" 4] < 2 ^ 63
  /\ group_sum "btc" [mkWordCount "btc" 3; mkWordCount "eth" 5; mkWordCount "btc" 4]
       mod 2 ^ 64
     = word_total "btc" [mkWordCount "btc" 3; mkWordCount "eth" 5; mkWordCount "btc" 4]
         mod 2 ^ 64.
Proof.
  exact (group_sum_wraps "btc"
           [mkWordCount "btc" 3; mkWordCount "eth" 5; mkWordCount "btc" 4]
           small_table_int64).
Defined.

Lemma total_permutation (l1 l2 : list Z) :
  Permutation l1 l2 -> total l1 = total l2.
Proof.
  unfold total. induction 1; simpl; lia.
Qed.

(** X18. Word trend and word counts agree: when the counts are not
    negative and their total stays below 2^63, the word trend of a word of
    the table returns objects [{"word": w, "count": c}] whose counts add up to
    the sum of that word's group. *)
Theorem word_trend_adds_up `{SortValues} (word_counts_df : list WordCount)
    (w : string) :
  (forall r, In r word_counts_df -> 0 <= count r) ->
  total (map count word_counts_df) < 2 ^ 63 ->
  In w (map word word_counts_df) ->
  exists rows,
    get_word_trend word_counts_df w
    = Ok (JList (map (fun r => JDict [("word", JStr (word r));
                                      ("count", JInt (count r))]) rows))
    /\ In (mkGrouped w (total (map count rows))) (groupby_word_sum word_counts_df).
Proof.
  intros Hpos Hfit Hw.
  set (matching := filter (fun r => String.eqb (word r) w) word_counts_df).
  exists (sort_values count matching). split.
  - unfold get_word_trend, JSONResponse. fold matching.
    rewrite nan_free_word_count_records. reflexivity.
  - assert (Hsum : total (map count (sort_values count matching))
                   = group_sum w word_counts_df).
    { rewrite <- (total_permutation _ _
                    (Permutation_map count (sort_values_perm _ count matching))).
      unfold group_sum. rewrite group_sum_from by (try assumption; lia).
      unfold word_total, total, matching. lia. }
    rewrite Hsum. unfold groupby_word_sum.
    apply (in_map (fun k => mkGrouped k (group_sum k word_counts_df))).
    apply group_keys_in, Hw.
Qed.

Lemma word_trend_adds_up_witness :
  exists rows,
    get_word_trend [mkWordCount "btc" 3; mkWordCount "eth" 5; mkWordCount "btc" 4] "btc"
    = Ok (JList (map (fun r => JDict [("word", JStr (word r));
                                      ("count", JInt (count r))]) rows))
    /\ In (mkGrouped "btc" (total (map count rows)))
          (groupby_word_sum [mkWordCount "btc" 3; mkWordCount "eth" 5;
                             mkWordCount "btc" 4]).
Proof.
  apply (word_trend_adds_up
           [mkWordCount "btc" 3; mkWordCount "eth" 5; mkWordCount "btc" 4] "btc").
  - intros r [<-|[<-|[<-|[]]]]; simpl; lia.
  - vm_compute. reflexivity.
  - simpl. auto.
Defined.

(** ** The words of an article: [split] and [Counter] *)

Lemma append_assoc (a b c : string) : (a ++ b) ++ c = a ++ (b ++ c).
Proof.
  induction a as [|x a IH]; simpl; [reflexivity|]. rewrite IH. reflexivity.
Qed.

Lemma append_empty_r (a : string) : a ++ "" = a.
Proof.
  induction a as [|x a IH]; simpl; [reflexivity|]. rewrite IH. reflexivity.
Qed.

Lemma has_space_app (a b : string) :
  has_space (a ++ b) = has_space a || has_space b.
Proof.
  induction a as [|x a IH]; simpl; [reflexivity|].
  rewrite IH. apply orb_assoc.
Qed.

Lemma is_empty_app_char (tok : string) (c : ascii) :
  is_empty (tok ++ String c "") = false.
Proof. destruct tok; reflexivity. Qed.

Lemma split_from_tokens (tok s : string) :
  has_space tok = false ->
  Forall (fun t => is_token t = true) (split_from tok s).
Proof.
  revert tok. induction s as [|c s IH]; intros tok Htok; simpl.
  - destruct (is_empty tok) eqn:E; constructor; [|constructor].
    unfold is_token. rewrite E, Htok. reflexivity.
  - destruct (isspace c) eqn:Ec.
    + destruct (is_empty tok) eqn:E.
      * apply IH. reflexivity.
      * constructor; [|apply IH; reflexivity].
        unfold is_token. rewrite E, Htok. reflexivity.
    + apply IH. rewrite has_space_app, Htok. simpl. rewrite Ec. reflexivity.
Qed.

(** X19. Every word that [split] yields is a token: it is not empty and
    holds no whitespace. *)
Theorem split_yields_tokens (s : string) :
  Forall (fun t => is_token t = true) (split s).
Proof. apply split_from_tokens. reflexivity. Qed.

Lemma split_from_run (tok t rest : string) :
  has_space t = false ->
  split_from tok (t ++ rest) = split_from (tok ++ t) rest.
Proof.
  revert tok. induction t as [|c t IH]; intros tok Ht; simpl.
  - rewrite append_empty_r. reflexivity.
  - simpl in Ht. apply orb_false_iff in Ht. destruct Ht as [Hc Ht].
    rewrite Hc, (IH _ Ht), append_assoc. reflexivity.
Qed.

(** X20. Splitting undoes joining with single spaces: tokens joined by
    [" "] split back into the same tokens. *)
Theorem split_join (tokens : list string) :
  Forall (fun t => is_token t = true) tokens ->
  split (String.concat " " tokens) = tokens.
Proof.
  unfold split. induction 1 as [|t rest Ht Hrest IH]; [reflexivity|].
  unfold is_token in Ht. apply andb_true_iff in Ht. destruct Ht as [Hne Hns].
  apply negb_true_iff in Hne. apply negb_true_iff in Hns.
  destruct rest as [|t' rest].
  - cbn [String.concat]. rewrite <- (append_empty_r t) at 1.
    rewrite (split_from_run "" t "" Hns). simpl. rewrite Hne. reflexivity.
  - change (String.concat " " (t :: t' :: rest))
      with (t ++ " " ++ String.concat " " (t' :: rest)).
    rewrite (split_from_run "" t _ Hns).
    change ("" ++ t) with t.
    change (" " ++ String.concat " " (t' :: rest))
      with (String " "%char (String.concat " " (t' :: rest))).
    cbn [split_from]. change (isspace " "%char) with true. cbn iota.
    rewrite Hne, IH. reflexivity.
Qed.

Lemma split_join_witness :
  split (String.concat " " ["Bitcoin"; "to"; "the"; "moon"])
  = ["Bitcoin"; "to"; "the"; "moon"].
Proof.
  apply split_join. repeat constructor.
Defined.

Lemma getitem_incr (k k' : string) (kvs : list (string * Z)) :
  getitem k (incr k' kvs)
  = if String.eqb k k' then getitem k kvs + 1 else getitem k kvs.
Proof.
  induction kvs as [|[k0 v0] kvs IH]; simpl.
  - destruct (String.eqb k k'); reflexivity.
  - destruct (String.eqb k' k0) eqn:E0; simpl.
    + apply String.eqb_eq in E0. subst k0.
      destruct (String.eqb k k'); reflexivity.
    + destruct (String.eqb k k0) eqn:E1.
      * apply String.eqb_eq in E1. subst k0.
        rewrite String.eqb_sym, E0. reflexivity.
      * exact IH.
Qed.

Lemma keys_incr (k : string) (kvs : list (string * Z)) :
  map fst (incr k kvs)
  = if in_dec string_dec k (map fst kvs) then map fst kvs
    else (map fst kvs ++ [k])%list.
Proof.
  induction kvs as [|[k0 v0] kvs IH]; simpl; [reflexivity|].
  destruct (String.eqb k k0) eqn:E.
  - apply String.eqb_eq in E. subst k0.
    destruct (string_dec k k); [reflexivity|congruence].
  - apply String.eqb_neq in E. simpl. rewrite IH.
    destruct (string_dec k0 k) as [Heq|Hne]; [congruence|].
    destruct (in_dec string_dec k (map fst kvs)); reflexivity.
Qed.

Lemma Counter_snoc (l : list string) (k : string) :
  items (Counter (l ++ [k])) = incr k (items (Counter l)).
Proof.
  unfold Counter. simpl. rewrite fold_left_app. reflexivity.
Qed.

Lemma first_occurrences_snoc (l : list string) (k : string) :
  first_occurrences (l ++ [k])
  = if in_dec string_dec k (first_occurrences l) then first_occurrences l
    else (first_occurrences l ++ [k])%list.
Proof.
  unfold first_occurrences. rewrite rev_app_distr. simpl.
  destruct (in_dec string_dec k (rev l)) as [Hin|Hout];
    destruct (in_dec string_dec k (rev (nodup string_dec (rev l)))) as [Hin'|Hout'];
    try reflexivity.
  - exfalso. apply Hout'. rewrite <- in_rev. apply nodup_In. exact Hin.
  - exfalso. apply Hout. rewrite <- in_rev in Hin'.
    apply nodup_In in Hin'. exact Hin'.
Qed.

Lemma Counter_keys (l : list string) :
  map fst (items (Counter l)) = first_occurrences l.
Proof.
  induction l as [|k l IH] using rev_ind; [reflexivity|].
  rewrite Counter_snoc, keys_incr, first_occurrences_snoc, IH. reflexivity.
Qed.

Lemma Counter_getitem (l : list string) (k : string) :
  getitem k (items (Counter l)) = Z.of_nat (count_occ string_dec l k).
Proof.
  induction l as [|k' l IH] using rev_ind; [reflexivity|].
  rewrite Counter_snoc, getitem_incr, IH, count_occ_app. simpl.
  destruct (String.eqb k k') eqn:E.
  - apply String.eqb_eq in E. subst k'.
    destruct (string_dec k k); [lia|congruence].
  - apply String.eqb_neq in E.
    destruct (string_dec k' k); [congruence|lia].
Qed.

Lemma getitem_in (k : string) (v : Z) (kvs : list (string * Z)) :
  NoDup (map fst kvs) -> In (k, v) kvs -> getitem k kvs = v.
Proof.
  induction kvs as [|[k0 v0] kvs IH]; simpl; intros Hnd Hin; [contradiction|].
  inversion Hnd as [|? ? Hk0 Hnd']; subst.
  destruct Hin as [Heq|Hin].
  - injection Heq as -> ->. rewrite String.eqb_refl. reflexivity.
  - destruct (String.eqb k k0) eqn:E.
    + apply String.eqb_eq in E. subst k0. exfalso. apply Hk0.
      apply (in_map fst) in Hin. exact Hin.
    + apply IH; assumption.
Qed.

(** X21. [Counter] recounts: the keys of [Counter(l)] are the distinct
    elements of [l] in the order of their first occurrence, and the value of
    each key is the number of times it occurs in [l]. *)
Theorem Counter_recount (l : list string) :
  map fst (items (Counter l)) = first_occurrences l
  /\ NoDup (map fst (items (Counter l)))
  /\ (forall k, In k (map fst (items (Counter l))) <-> In k l)
  /\ (forall k v, In (k, v) (items (Counter l)) ->
        v = Z.of_nat (count_occ string_dec l k)).
Proof.
  assert (Hnd : NoDup (map fst (items (Counter l)))).
  { rewrite Counter_keys. unfold first_occurrences.
    apply NoDup_rev, NoDup_nodup. }
  split; [apply Counter_keys|]. split; [exact Hnd|]. split.
  - intros k. rewrite Counter_keys. unfold first_occurrences.
    rewrite <- in_rev, nodup_In, <- in_rev. reflexivity.
  - intros k v Hin. rewrite <- Counter_getitem. symmetry.
    apply getitem_in; assumption.
Qed.

(** ** Queries with dots *)

Lemma re_compile_dotted (p : string) :
  dotted p = true -> re_compile p = Ok (atoms p).
Proof.
  induction p as [|c rest IH]; simpl; intros Hp; [reflexivity|].
  apply andb_true_iff in Hp. destruct Hp as [Hc Hrest].
  rewrite (IH Hrest). destruct (Ascii.eqb c dot); [reflexivity|].
  simpl in Hc. apply negb_true_iff in Hc. rewrite Hc. reflexivity.
Qed.

Lemma lower_char_dot (c : ascii) : lower_char c = dot -> c <> newline.
Proof. intros H ->. discriminate H. Qed.

Lemma prefix_match_here (p s : string) :
  String.prefix p s = true -> match_here false (atoms p) s = true.
Proof.
  revert s. induction p as [|a p IH]; intros s; [reflexivity|].
  destruct s as [|b s]; simpl; [discriminate|].
  destruct (ascii_dec a b) as [<-|]; [|discriminate].
  intros H. rewrite (IH _ H), andb_true_r.
  destruct (Ascii.eqb a dot) eqn:E; simpl; [|apply Ascii.eqb_refl].
  apply Ascii.eqb_eq in E. subst a. reflexivity.
Qed.

Lemma prefix_match_here_nocase (p s : string) :
  String.prefix (lower p) (lower s) = true -> match_here true (atoms p) s = true.
Proof.
  revert s. induction p as [|a p IH]; intros s; [reflexivity|].
  destruct s as [|b s]; simpl; [discriminate|].
  destruct (ascii_dec (lower_char a) (lower_char b)) as [Heq|]; [|discriminate].
  intros H. rewrite (IH _ H), andb_true_r.
  destruct (Ascii.eqb a dot) eqn:E; simpl.
  - apply Ascii.eqb_eq in E. subst a.
    apply negb_true_iff, Ascii.eqb_neq, lower_char_dot. symmetry. exact Heq.
  - rewrite Heq. apply Ascii.eqb_refl.
Qed.

Lemma substring_re_search (p s : string) :
  substringb p s = true -> re_search false (atoms p) s = true.
Proof.
  induction s as [|b s IH]; cbn [substringb re_search]; intros H;
    apply orb_true_iff in H; apply orb_true_iff; destruct H as [H|H].
  - left. apply prefix_match_here, H.
  - discriminate.
  - left. apply prefix_match_here, H.
  - right. apply IH, H.
Qed.

Lemma substring_re_search_nocase (p s : string) :
  substringb (lower p) (lower s) = true -> re_search true (atoms p) s = true.
Proof.
  induction s as [|b s IH]; cbn [lower substringb re_search]; intros H;
    apply orb_true_iff in H; apply orb_true_iff; destruct H as [H|H].
  - left. apply (prefix_match_here_nocase p ""), H.
  - discriminate.
  - left. apply (prefix_match_here_nocase p (String b s)), H.
  - right. apply IH, H.
Qed.

Lemma count_if_mono {A : Type} (f g : A -> bool) (l : list A) :
  (forall x, f x = true -> g x = true) -> count_if f l <= count_if g l.
Proof.
  intros Himp. unfold count_if.
  induction l as [|x l IH]; simpl; [lia|].
  destruct (f x) eqn:Ef.
  - rewrite (Himp x Ef). simpl length. lia.
  - destruct (g x); simpl length; lia.
Qed.

(** X22. A category whose only special characters are dots (a host name,
    say) is never undercounted: the comparison returns, and each count is at
    least the number of articles whose link contains the category as
    written. *)
Theorem comparative_dotted_categories (arts : list Article)
    (category1 category2 : string) :
  dotted category1 = true -> dotted category2 = true ->
  exists n1 n2,
    get_comparative (frame_of arts) category1 category2
    = Ok (JDict [("category1", JInt n1); ("category2", JInt n2)])
    /\ count_if (fun a => substringb category1 (art_link a)) arts <= n1
    /\ count_if (fun a => substringb category2 (art_link a)) arts <= n2.
Proof.
  intros H1 H2.
  rewrite (get_comparative_eq _ _ _ (link_column_frame arts)).
  rewrite (re_compile_dotted _ H1), (re_compile_dotted _ H2).
  simpl. rewrite !count_if_frame.
  eexists. eexists. split; [reflexivity|].
  split; apply count_if_mono; intros a; simpl; apply substring_re_search.
Qed.

Lemma comparative_dotted_categories_witness :
  exists n1 n2,
    get_comparative
      (frame_of [mkArticle "a" "https://bbc.com/1" "x";
                 mkArticle "b" "https://bbcxcom.org/2" "y"]) "bbc.com" "cnn.com"
    = Ok (JDict [("category1", JInt n1); ("category2", JInt n2)])
    /\ count_if (fun a => substringb "bbc.com" (art_link a))
         [mkArticle "a" "https://bbc.com/1" "x";
          mkArticle "b" "https://bbcxcom.org/2" "y"] <= n1
    /\ count_if (fun a => substringb "cnn.com" (art_link a))
         [mkArticle "a" "https://bbc.com/1" "x";
          mkArticle "b" "https://bbcxcom.org/2" "y"] <= n2.
Proof.
  exact (comparative_dotted_categories
           [mkArticle "a" "https://bbc.com/1" "x";
            mkArticle "b" "https://bbcxcom.org/2" "y"] "bbc.com" "cnn.com"
           eq_refl eq_refl).
Defined.

(** X23. A coin whose only special characters are dots misses no
    article: the coin filter returns the pairs of a selection of the articles,
    in table order, and every article whose content contains the coin as
    written, letter case apart, is selected. *)
Theorem by_coin_dotted_coin (arts : list Article) (coin : string) :
  dotted coin = true ->
  exists keep : Article -> bool,
    get_by_coin (frame_of arts) coin
    = Ok (JList (map title_link_of (filter keep arts)))
    /\ (forall a, substringb (lower coin) (lower (art_content a)) = true ->
                  keep a = true).
Proof.
  intros Hd.
  exists (fun a => re_search true (atoms coin) (art_content a)). split.
  - rewrite (get_by_coin_eq _ _ (content_column_frame arts)).
    rewrite (re_compile_dotted _ Hd). simpl.
    rewrite filter_frame, map_title_link_frame.
    apply JSONResponse_title_links.
  - intros a. apply substring_re_search_nocase.
Qed.

Lemma by_coin_dotted_coin_witness :
  exists keep : Article -> bool,
    get_by_coin (frame_of [mkArticle "t1" "l1" "Pay with BTC.X today";
                           mkArticle "t2" "l2" "no mention"]) "btc.x"
    = Ok (JList (map title_link_of
                   (filter keep [mkArticle "t1" "l1" "Pay with BTC.X today";
                                 mkArticle "t2" "l2" "no mention"])))
    /\ (forall a, substringb (lower "btc.x") (lower (art_content a)) = true ->
                  keep a = true).
Proof.
  exact (by_coin_dotted_coin
           [mkArticle "t1" "l1" "Pay with BTC.X today";
            mkArticle "t2" "l2" "no mention"] "btc.x" eq_refl).
Defined.

(** ** Missing fields, column by column *)







